(** * covidApp.py: the data pipeline of the Covid-19 dashboard

    A shallow embedding of [get_data] (src/covidApp.py, lines 15-77) and of
    the region filter of the sidebar (lines 84-99), with the pandas
    operations they call written out as list functions:

    - a DataFrame is the list of its rows in table order, every row paired
      with its index label; a Series is a list of labelled values;
    - a missing value ([NaN]) of a string or count column is [None];
    - the count columns hold integers (float64 holds every integer of
      magnitude up to 2^53 exactly), so sums and differences are taken in
      [Z]; the quotient of two counts is the binary64 division of the
      Standard Library's specification of IEEE 754 ([SpecFloat]), rounding
      to nearest even, on the two counts converted to binary64;
    - Python strings are compared as their UTF-8 byte sequences, which is
      the code point order Python uses;
    - an exception is a value of the error monad [result].

    [pd.read_csv] is outside the program and is a parameter of [get_data].
    The memoisation by [st.cache] and the charts are not modelled. *)

From Stdlib Require Import List ZArith String Ascii Bool Arith Lia.
From Stdlib Require SpecFloat.
From Stdlib Require Import Permutation Sorted.
Import ListNotations.

Local Open Scope string_scope.
Local Open Scope Z_scope.
Local Open Scope list_scope.

(** ** Exceptions *)

(** The exceptions that can leave [get_data]: the ones [pd.read_csv] raises
    on a failed download or a malformed body, and the ones pandas raises
    when a column the code names is absent. *)
Inductive exn : Type :=
| URLError
| HTTPError (status : nat)
| ParserError
| AttributeError (name : string)
| KeyError (names : list string).

Inductive result (A : Type) : Type :=
| Ok (a : A)
| Raise (e : exn).

Arguments Ok {A} a.
Arguments Raise {A} e.

Definition bind {A B : Type} (m : result A) (k : A -> result B) : result B :=
  match m with
  | Ok a => k a
  | Raise e => Raise e
  end.

Notation "x <- m ;; k" := (bind m (fun x => k))
  (at level 61, m at next level, right associativity).

(** ** Values and tables *)

Definition label := nat.

(** A Series: values in order, each under its index label. *)
Definition Series (A : Type) := list (label * A).

(** A cell of an object column, as [melt] and [fillna] leave it. *)
Inductive cell : Type :=
| NaN
| Str (s : string)
| Num (z : Z).

(** A float64: a signed zero, a signed infinity, NaN, or the finite number
    [(-1)^s * m * 2^e]. *)
Definition float : Type := SpecFloat.spec_float.

(** The precision of binary64 and the exponent of its infinities. *)
Definition prec : Z := 53.

Definition emax : Z := 1024.

Module Raw.
(** One row of chiffres-cles.csv, restricted to the columns the code reads. *)
Record t : Type := mk {
  date : option string;
  granularite : option string;
  source_type : option string;
  maille_nom : option string;
  cas_confirmes : option Z;
  deces : option Z;
  reanimation : option Z
}.
End Raw.

(** What [pd.read_csv] returns: the column names of the header and the rows.
    A field of a row whose column is absent is never read: every access to
    a column first checks [columns]. *)
Record DataFrame : Type := {
  columns : list string;
  rows : list Raw.t
}.

Module National.
(** A row of [df_covid19_fr]. *)
Record t : Type := mk {
  date : cell;
  type : cell;
  nombre : cell
}.
End National.

Module Base.
(** A row of [df_covid19_region] after the projection of line 47. *)
Record t : Type := mk {
  date : option string;
  maille_nom : option string;
  cas_confirmes : option Z;
  deces : option Z
}.
End Base.

Module Region.
(** A row of [df_covid19_region] as [get_data] returns it. *)
Record t : Type := mk {
  date : option string;
  maille_nom : option string;
  cas_confirmes : option Z;
  deces : option Z;
  delta_deces : option Z;
  delta_cas_confirmes : option Z;
  fatality_rate : float;
  days_after_5_deaths : option nat;
  days_after_50_confirmed : option nat
}.
End Region.

Definition URL_OPENCOVID19 : string :=
  "https://raw.githubusercontent.com/opencovid19-fr/data/master/dist/chiffres-cles.csv".

(** ** Elementwise operations *)

(** [column == "text"]: false on a missing value. *)
Definition eq_str (c : option string) (s : string) : bool :=
  match c with
  | Some x => String.eqb x s
  | None => false
  end.

(** [column > n]: false on a missing value. *)
Definition gt (c : option Z) (n : Z) : bool :=
  match c with
  | Some x => n <? x
  | None => false
  end.

(** Subtraction of two cells of a count column. *)
Definition sub (a b : option Z) : option Z :=
  match a, b with
  | Some x, Some y => Some (x - y)
  | _, _ => None
  end.

(** An integer as a float64, rounded to nearest even where it has more than
    53 bits. *)
Definition of_int (z : Z) : float := SpecFloat.binary_normalize prec emax z 0 false.

(** A cell of a count column as a float64, a missing one as NaN. *)
Definition to_float (c : option Z) : float :=
  match c with
  | Some z => of_int z
  | None => SpecFloat.S754_nan
  end.

(** [deces / cas_confirmes]: float64 true division, which raises nothing:
    it gives an infinity for a division by zero and NaN for 0 / 0 and for a
    missing operand. *)
Definition truediv (a b : option Z) : float :=
  SpecFloat.SFdiv prec emax (to_float a) (to_float b).

(** Equality of two cells of a string column, two missing values being
    equal (as in [unique] and [isin]). *)
Definition opt_eqb (a b : option string) : bool :=
  match a, b with
  | Some x, Some y => String.eqb x y
  | None, None => true
  | _, _ => false
  end.

(** ** Index labels and alignment *)

(** [pd.read_csv] numbers the rows 0, 1, 2, ... (a RangeIndex). *)
Definition range_index {A : Type} (l : list A) : list (label * A) :=
  combine (seq 0 (List.length l)) l.

(** [df[mask]]: the rows where the mask holds, labels kept. *)
Definition boolean_index {A : Type} (mask : A -> bool) (df : list (label * A))
  : list (label * A) :=
  filter (fun x => mask (snd x)) df.

Fixpoint lookup {A : Type} (i : label) (s : Series A) : option A :=
  match s with
  | [] => None
  | (j, v) :: s' => if Nat.eqb i j then Some v else lookup i s'
  end.

(** The value a Series of nullable values gives to the row labelled [i] when
    it is assigned as a column: its value at [i], missing when the Series
    has no such label. *)
Definition loc {A : Type} (s : Series (option A)) (i : label) : option A :=
  match lookup i s with
  | Some v => v
  | None => None
  end.

(** ** sort_values *)

Section Sort.
Context {A : Type}.
Variable cmp : A -> A -> comparison.

Definition leb_of (x y : A) : bool :=
  match cmp x y with
  | Gt => false
  | _ => true
  end.

Fixpoint insert (x : label * A) (l : list (label * A)) : list (label * A) :=
  match l with
  | [] => [x]
  | y :: l' => if leb_of (snd x) (snd y) then x :: y :: l' else y :: insert x l'
  end.

(** [DataFrame.sort_values(by=[...])] with several keys is a stable
    lexicographic sort; a stable sort has one result, computed here by
    insertion. *)
Fixpoint sort_values (df : list (label * A)) : list (label * A) :=
  match df with
  | [] => []
  | x :: df' => insert x (sort_values df')
  end.

End Sort.

(** Order of one key column, missing values last ([na_position="last"]). *)
Definition cmp_key (ascending : bool) (a b : option string) : comparison :=
  match a, b with
  | Some x, Some y => if ascending then String.compare x y else String.compare y x
  | Some _, None => Lt
  | None, Some _ => Gt
  | None, None => Eq
  end.

(** The first key decides, the second one breaks its ties. *)
Definition lexico (c1 c2 : comparison) : comparison :=
  match c1 with
  | Eq => c2
  | _ => c1
  end.

(** [by=["maille_nom", "date"]] (line 50). *)
Definition cmp_region (a b : Base.t) : comparison :=
  lexico (cmp_key true (Base.maille_nom a) (Base.maille_nom b))
         (cmp_key true (Base.date a) (Base.date b)).

(** ** groupby *)

Section GroupBy.
Context {A : Type}.
Variable key : A -> option string.
Variable val : A -> option Z.

(** Membership of a row in the group named [g]; a row whose key is missing
    is in no group ([dropna=True]). *)
Definition in_group (g : string) (r : A) : bool := eq_str (key r) g.

(** [groupby(key)[val].diff()]: every row minus the previous row of its
    group; [seen] holds the rows already passed, the latest first. *)
Fixpoint diff_from (seen : list A) (df : list (label * A)) : Series (option Z) :=
  match df with
  | [] => []
  | (i, r) :: df' =>
      (i, match key r with
          | None => None
          | Some g =>
              match find (in_group g) seen with
              | Some p => sub (val r) (val p)
              | None => None
              end
          end) :: diff_from (r :: seen) df'
  end.

Definition groupby_diff (df : list (label * A)) : Series (option Z) :=
  diff_from [] df.

Definition val_ltb (v : Z) (r : A) : bool :=
  match val r with
  | Some w => w <? v
  | None => false
  end.

Definition val_eqb (v : Z) (r : A) : bool :=
  match val r with
  | Some w => w =? v
  | None => false
  end.

Definition count (p : A -> bool) (l : list A) : nat := List.length (filter p l).

(** The rank of [r] with [method="first"], [ascending=True]: one more than
    the number of rows of its group with a smaller value plus the number
    of rows of its group, among those before it, with the same value. *)
Definition rank_first (all before : list A) (r : A) : option nat :=
  match key r, val r with
  | Some g, Some v =>
      Some (1 + count (fun r' => in_group g r' && val_ltb v r') all
              + count (fun r' => in_group g r' && val_eqb v r') before)%nat
  | _, _ => None
  end.

Fixpoint rank_from (all before : list A) (df : list (label * A))
  : Series (option nat) :=
  match df with
  | [] => []
  | (i, r) :: df' => (i, rank_first all before r) :: rank_from all (r :: before) df'
  end.

(** [groupby(key)[val].rank(method="first", ascending=True)]. *)
Definition groupby_rank (df : list (label * A)) : Series (option nat) :=
  rank_from (map snd df) [] df.

End GroupBy.

(** ** The national branch (lines 29-40) *)

Definition of_str (c : option string) : cell :=
  match c with
  | Some s => Str s
  | None => NaN
  end.

Definition of_num (c : option Z) : cell :=
  match c with
  | Some z => Num z
  | None => NaN
  end.

Definition value_vars : list (string * (Raw.t -> option Z)) :=
  [("cas_confirmes", Raw.cas_confirmes);
   ("deces", Raw.deces);
   ("reanimation", Raw.reanimation)].

(** The block of rows [pd.melt] emits for one value column. *)
Definition melt_var (df : list (label * Raw.t)) (v : string * (Raw.t -> option Z))
  : list National.t :=
  map (fun x => National.mk (of_str (Raw.date (snd x))) (Str (fst v))
                            (of_num (snd v (snd x)))) df.

(** [pd.melt(df, id_vars=["date"], value_vars=[...], var_name="type",
    value_name="nombre")]: one block per value column, in the order of
    [value_vars], each in the order of the rows. *)
Definition melt (df : list (label * Raw.t)) : list National.t :=
  flat_map (melt_var df) value_vars.

Definition fill (value : Z) (c : cell) : cell :=
  match c with
  | NaN => Num value
  | _ => c
  end.

(** [DataFrame.fillna(value=v)]: every missing cell of every column. *)
Definition fillna (value : Z) (df : list National.t) : list National.t :=
  map (fun r => National.mk (fill value (National.date r))
                            (fill value (National.type r))
                            (fill value (National.nombre r))) df.

Definition is_national (r : Raw.t) : bool :=
  eq_str (Raw.granularite r) "pays"
  && eq_str (Raw.source_type r) "sante-publique-france".

Definition df_covid19_fr (data : list (label * Raw.t)) : list National.t :=
  fillna 0 (melt (boolean_index is_national data)).

(** ** The regional branch (lines 43-75) *)

Definition is_regional (r : Raw.t) : bool :=
  eq_str (Raw.granularite r) "region"
  && eq_str (Raw.source_type r) "agences-regionales-sante".

(** [df[["date", "maille_nom", "cas_confirmes", "deces"]]]. *)
Definition project (df : list (label * Raw.t)) : list (label * Base.t) :=
  map (fun x => (fst x, Base.mk (Raw.date (snd x)) (Raw.maille_nom (snd x))
                                (Raw.cas_confirmes (snd x)) (Raw.deces (snd x)))) df.

(** The table the delta and rank columns are computed on (lines 43-50). *)
Definition sorted_region (data : list (label * Raw.t)) : list (label * Base.t) :=
  sort_values cmp_region (project (boolean_index is_regional data)).

(** The mask [df.col > n], on a labelled row. *)
Definition above_row (val : Base.t -> option Z) (n : Z) (x : label * Base.t) : bool :=
  gt (val (snd x)) n.

(** [df[df.col > n]]: the rows whose count is above a threshold. *)
Definition above (val : Base.t -> option Z) (n : Z) (df : list (label * Base.t))
  : list (label * Base.t) :=
  boolean_index (fun r => gt (val r) n) df.

(** Lines 64-68 and 70-74, which differ by the column and the threshold:
    [df[df.col > n].groupby("maille_nom")[col].rank(method="first",
    ascending=True)]. *)
Definition days_after (val : Base.t -> option Z) (n : Z) (df : list (label * Base.t))
  : Series (option nat) :=
  groupby_rank Base.maille_nom val (above val n df).

(** Lines 52-74: the five computed columns, each assigned to the table by
    index label. *)
Definition add_columns (df : list (label * Base.t)) : list (label * Region.t) :=
  let delta_deces := groupby_diff Base.maille_nom Base.deces df in
  let delta_cas_confirmes := groupby_diff Base.maille_nom Base.cas_confirmes df in
  let days_after_5_deaths := days_after Base.deces 5 df in
  let days_after_50_confirmed := days_after Base.cas_confirmes 50 df in
  map (fun x =>
         (fst x,
          Region.mk (Base.date (snd x)) (Base.maille_nom (snd x))
                    (Base.cas_confirmes (snd x)) (Base.deces (snd x))
                    (loc delta_deces (fst x))
                    (loc delta_cas_confirmes (fst x))
                    (truediv (Base.deces (snd x)) (Base.cas_confirmes (snd x)))
                    (loc days_after_5_deaths (fst x))
                    (loc days_after_50_confirmed (fst x)))) df.

Definition df_covid19_region (data : list (label * Raw.t)) : list (label * Region.t) :=
  add_columns (sorted_region data).

(** ** get_data *)

Definition has_column (df : DataFrame) (name : string) : bool :=
  existsb (String.eqb name) (columns df).

(** [data.name]: attribute access to a column. *)
Definition getattr (df : DataFrame) (name : string) : result unit :=
  if has_column df name then Ok tt else Raise (AttributeError name).

(** The check [pd.melt] and [df[[...]]] make on the columns they are given:
    a KeyError naming the absent ones. *)
Definition check_columns (df : DataFrame) (names : list string) : result unit :=
  match filter (fun n => negb (has_column df n)) names with
  | [] => Ok tt
  | missing => Raise (KeyError missing)
  end.

Section GetData.
(** [pd.read_csv]: the download and the parsing, outside the program. *)
Variable read_csv : string -> result DataFrame.

Definition get_data (url : string)
  : result (list (label * Region.t) * list National.t) :=
  data <- read_csv url ;;
  let table := range_index (rows data) in
  _ <- getattr data "granularite" ;;
  _ <- getattr data "source_type" ;;
  _ <- check_columns data ["date"] ;;
  _ <- check_columns data ["cas_confirmes"; "deces"; "reanimation"] ;;
  let fr := df_covid19_fr table in
  _ <- getattr data "granularite" ;;
  _ <- getattr data "source_type" ;;
  _ <- check_columns data ["date"; "maille_nom"; "cas_confirmes"; "deces"] ;;
  let region := df_covid19_region table in
  Ok (region, fr).
End GetData.

(** ** The region filter of the sidebar (lines 84-99) *)

(** DataFrames are objects: the script holds references to them, and an
    operation that returns a DataFrame returns a new object. The heap holds
    the regional tables made so far, a reference is a position in it. *)
Definition ref := nat.

Definition heap := list (list (label * Region.t)).

Definition deref (h : heap) (r : ref) : list (label * Region.t) := nth r h [].

(** A step of the script: from a heap to a result and the heap after. *)
Definition state (A : Type) := heap -> A * heap.

(** The creation of a DataFrame: a fresh reference, no other object
    touched. *)
Definition new (df : list (label * Region.t)) : state ref :=
  fun h => (List.length h, h ++ [df]).

Definition read (r : ref) : state (list (label * Region.t)) :=
  fun h => (deref h r, h).

Definition then_ {A B : Type} (m : state A) (k : A -> state B) : state B :=
  fun h => let (a, h') := m h in k a h'.

Notation "x <~ m ;; k" := (then_ m (fun x => k))
  (at level 61, m at next level, right associativity).

(** [Series.unique()]: the distinct values in order of first appearance, a
    missing value among them. *)
Fixpoint unique (l : list (option string)) : list (option string) :=
  match l with
  | [] => []
  | x :: l' => x :: filter (fun y => negb (opt_eqb x y)) (unique l')
  end.

(** [Series.isin(values)]; a missing value is in a list that holds one. *)
Definition isin (values : list (option string)) (x : option string) : bool :=
  existsb (opt_eqb x) values.

(** [by=["maille_nom", "date"], ascending=[True, False]] (line 99). *)
Definition cmp_view (a b : Region.t) : comparison :=
  lexico (cmp_key true (Region.maille_nom a) (Region.maille_nom b))
         (cmp_key false (Region.date a) (Region.date b)).

(** [df[mask]]: a new DataFrame with the rows the mask selects. *)
Definition getitem (mask : Region.t -> bool) (r : ref) : state ref :=
  df <~ read r ;;
  new (boolean_index mask df).

(** [df.sort_values(...)] with [inplace=False]: a new, sorted DataFrame. *)
Definition sort_values_new (cmp : Region.t -> Region.t -> comparison) (r : ref)
  : state ref :=
  df <~ read r ;;
  new (sort_values cmp df).

(** Line 84: the options of the multiselect. *)
Definition regions (df : list (label * Region.t)) : list (option string) :=
  unique (map (fun x => Region.maille_nom (snd x)) df).

(** Lines 97-99; the result is what the name [df_covid19_region] is bound to
    from then on. *)
Definition select_regions (multiselection : list (option string))
           (df_covid19_region : ref) : state ref :=
  selected <~ getitem (fun row => isin multiselection (Region.maille_nom row))
                      df_covid19_region ;;
  sort_values_new cmp_view selected.

(** * Vocabulary of the statements *)

(** ** Columns and exception classes *)

Definition expected_columns : list string :=
  ["date"; "granularite"; "source_type"; "maille_nom"; "cas_confirmes";
   "deces"; "reanimation"].

(** The classes of the spec's taxonomy, read on the exceptions of the code:
    a failed download is a [URLError] or an [HTTPError], a body that does
    not parse is a [ParserError]. *)
Definition is_network_error (e : exn) : bool :=
  match e with
  | URLError | HTTPError _ => true
  | _ => false
  end.

Definition is_parse_error (e : exn) : bool :=
  match e with
  | ParserError => true
  | _ => false
  end.

(** The exceptions pandas raises when the code names an absent column. *)
Definition is_missing_column (e : exn) : bool :=
  match e with
  | AttributeError _ | KeyError _ => true
  | _ => false
  end.

(** ** Orders *)

(** The order of two rows of a table sorted by [cmp]. *)
Definition le_rows {A : Type} (cmp : A -> A -> comparison) (x y : label * A) : Prop :=
  leb_of cmp (snd x) (snd y) = true.

(** The rows that tie with [a] under [cmp]. *)
Definition ties {A : Type} (cmp : A -> A -> comparison) (a : A) (x : label * A)
  : bool :=
  match cmp a (snd x) with
  | Eq => true
  | _ => false
  end.

(** What [sort_values] needs of the comparison of two rows. *)
Record order {A : Type} (cmp : A -> A -> comparison) : Prop := {
  cmp_antisym : forall x y, cmp y x = CompOpp (cmp x y);
  cmp_lt_trans : forall x y z, cmp x y = Lt -> cmp y z = Lt -> cmp x z = Lt;
  cmp_eq_l : forall x y z, cmp x y = Eq -> cmp x z = cmp y z
}.

(** ** Counts that float64 holds exactly *)



(** ** Reading the regional table *)

(** The four input columns of a row of the regional table. *)
Definition base_of (r : Region.t) : Base.t :=
  Base.mk (Region.date r) (Region.maille_nom r) (Region.cas_confirmes r)
          (Region.deces r).

(** The regional table without its computed columns. *)
Definition base_table (region : list (label * Region.t)) : list (label * Base.t) :=
  map (fun x => (fst x, base_of (snd x))) region.

(** Two rows have the same [maille_nom] and the same [date]. *)
Definition same_keys (a : Base.t) (x : label * Base.t) : bool :=
  opt_eqb (Base.maille_nom a) (Base.maille_nom (snd x))
  && opt_eqb (Base.date a) (Base.date (snd x)).

(** The row belongs to the region [g]. *)
Definition in_region (g : string) (x : label * Base.t) : bool :=
  eq_str (Base.maille_nom (snd x)) g.

(** Ascending dates, a missing date last. *)
Definition date_le (x y : label * Base.t) : Prop :=
  cmp_key true (Base.date (snd x)) (Base.date (snd y)) <> Gt.

(** The same, on a row of the table [get_data] returns. *)
Definition of_region (g : string) (x : label * Region.t) : bool :=
  eq_str (Region.maille_nom (snd x)) g.

(** The rows of the regional table whose [maille_nom] is [g], in table
    order. *)
Definition rows_of (g : string) (region : list (label * Region.t)) : list Region.t :=
  map snd (filter (of_region g) region).

(** The date of [x] is not after the date of [y], a missing date last. *)
Definition chronological (x y : Region.t) : Prop :=
  cmp_key true (Region.date x) (Region.date y) <> Gt.

(** The values that are present in a list of nullable values. *)
Definition dropna {X : Type} (l : list (option X)) : list X :=
  flat_map (fun o => match o with Some x => [x] | None => [] end) l.

(** ** The rows and the values of one group *)

(** [Series.diff()] on the rows of one group, [prev] being the row before. *)
Fixpoint diff_with {A : Type} (val : A -> option Z) (prev : option A) (l : list A)
  : list (option Z) :=
  match l with
  | [] => []
  | r :: l' =>
      match prev with
      | Some p => sub (val r) (val p)
      | None => None
      end :: diff_with val (Some r) l'
  end.

(** The values of the rows of group [g], in table order. *)
Definition gvals {A : Type} (key : A -> option string) (val : A -> option Z)
           (g : string) (l : list A) : list Z :=
  flat_map (fun r => if in_group key g r
                     then match val r with Some v => [v] | None => [] end
                     else []) l.

(** ** Ranks with method "first" on a list of values *)

(** How many values of [l] are below [v], and how many are [v]. *)
Definition nlt (v : Z) (l : list Z) : nat := List.length (filter (fun w => w <? v) l).

Definition neq (v : Z) (l : list Z) : nat := List.length (filter (fun w => w =? v) l).

(** The ranks of the values [post], which follow the values [before] (the
    latest first) in the list [all]. *)
Fixpoint ranks_from (all before post : list Z) : list nat :=
  match post with
  | [] => []
  | v :: post' => (1 + nlt v all + neq v before)%nat :: ranks_from all (v :: before) post'
  end.

(** The date of [x] is not before the date of [y], a missing date last:
    the order of the rows of a region in the view of the sidebar. *)
Definition latest_first (x y : Region.t) : Prop :=
  cmp_key false (Region.date x) (Region.date y) <> Gt.

(** ** The order of the ranks *)

(** In the list [qs] of rows, the index [days] follows the count [count]:
    of two rows the one with the smaller count has the smaller index, and
    of two rows with the same count the one that stands first. *)
Definition follows_counts (count : Region.t -> option Z)
           (days : Region.t -> option nat) (qs : list Region.t) : Prop :=
  forall i j x y cx cy,
    nth_error qs i = Some x -> nth_error qs j = Some y ->
    count x = Some cx -> count y = Some cy ->
    cx < cy \/ (cx = cy /\ (i < j)%nat) ->
    exists rx ry, days x = Some rx /\ days y = Some ry /\ (rx < ry)%nat.

(** ** The rank by date *)

Section ByDate.
Variable val : Base.t -> option Z.
Variable n : Z.

(** The construction in the words of the specification: the rank, from 1,
    of a row among the rows of its region with [val > n], by ascending date
    and, on equal dates, in input order. On the table sorted by region and
    date that is one more than the number of such rows above it; [seen]
    holds the rows above. *)
Fixpoint by_date_from (seen : list Base.t) (df : list (label * Base.t))
  : list (option nat) :=
  match df with
  | [] => []
  | (_, r) :: df' =>
      (if gt (val r) n then
         match Base.maille_nom r with
         | Some g =>
             Some (1 + count (fun r' => in_group Base.maille_nom g r'
                                        && gt (val r') n) seen)%nat
         | None => None
         end
       else None) :: by_date_from (r :: seen) df'
  end.

Definition rank_by_date (df : list (label * Base.t)) : list (option nat) :=
  by_date_from [] df.

End ByDate.

(** ** Tables of the examples *)

(** A [read_csv] that finds the same table under every url. *)
Definition served (df : DataFrame) (url : string) : result DataFrame := Ok df.

(** A row with every cell present but [reanimation]. *)
Definition raw (d g s m : string) (c x : Z) : Raw.t :=
  Raw.mk (Some d) (Some g) (Some s) (Some m) (Some c) (Some x) None.

(** The example of the specification: [deces] 0, 2, 6, 9 on four
    consecutive dates, here out of order in the input. *)
Definition grand_est : list Raw.t :=
  [raw "2020-03-04" "region" "agences-regionales-sante" "Grand Est" 60 9;
   raw "2020-03-01" "region" "agences-regionales-sante" "Grand Est" 10 0;
   raw "2020-03-03" "region" "agences-regionales-sante" "Grand Est" 40 6;
   raw "2020-03-02" "region" "agences-regionales-sante" "Grand Est" 20 2].

Definition sample_rows : list Raw.t :=
  grand_est ++
  [raw "2020-03-01" "pays" "sante-publique-france" "France" 130 2;
   Raw.mk None (Some "pays") (Some "sante-publique-france") (Some "France")
          (Some 191) (Some 3) (Some 9);
   raw "2020-03-01" "pays" "ministere-sante" "France" 130 2;
   raw "2020-03-02" "region" "agences-regionales-sante" "Bretagne" 0 0;
   raw "2020-03-01" "region" "agences-regionales-sante" "Bretagne" 0 0].

Definition sample_frame : DataFrame :=
  {| columns := expected_columns; rows := sample_rows |}.

Definition sample_region : list (label * Region.t) :=
  df_covid19_region (range_index sample_rows).

Definition sample_fr : list National.t :=
  df_covid19_fr (range_index sample_rows).


(** A region whose counts are missing on the second day. *)
Definition missing_count : DataFrame :=
  {| columns := expected_columns;
     rows :=
       [Raw.mk (Some "2020-03-01") (Some "region") (Some "agences-regionales-sante")
               (Some "Corse") (Some 10) (Some 1) None;
        Raw.mk (Some "2020-03-02") (Some "region") (Some "agences-regionales-sante")
               (Some "Corse") None None None;
        Raw.mk (Some "2020-03-03") (Some "region") (Some "agences-regionales-sante")
               (Some "Corse") (Some 30) (Some 4) None] |}.

(** A table parsed from a body that has no column [deces]. *)
Definition without_deces : DataFrame :=
  {| columns := ["date"; "granularite"; "source_type"; "maille_nom";
                 "cas_confirmes"; "reanimation"];
     rows := [] |}.

(** A region whose counts were corrected downwards on the second day. *)
Definition corrected_downwards : DataFrame :=
  {| columns := expected_columns;
     rows := [raw "2020-03-01" "region" "agences-regionales-sante" "Corse" 100 10;
              raw "2020-03-02" "region" "agences-regionales-sante" "Corse" 90 8;
              raw "2020-03-03" "region" "agences-regionales-sante" "Corse" 120 12] |}.

(** * Properties *)

(** ** The example of the specification *)

Example grand_est_delta_deces :
  map (fun x => Region.delta_deces (snd x)) (df_covid19_region (range_index grand_est))
  = [None; Some 2; Some 4; Some 3].
Proof. reflexivity. Qed.

Example grand_est_days_after_5_deaths :
  map (fun x => Region.days_after_5_deaths (snd x))
      (df_covid19_region (range_index grand_est))
  = [None; None; Some 1%nat; Some 2%nat].
Proof. reflexivity. Qed.

(** ** The error monad and the column checks *)

Lemma bind_Ok {A B : Type} (m : result A) (k : A -> result B) (b : B) :
  bind m k = Ok b -> exists a, m = Ok a /\ k a = Ok b.
Proof.
  destruct m as [a|e]; simpl; intros H.
  - exists a. split; [reflexivity | exact H].
  - discriminate H.
Qed.

(** When [get_data] returns, its two tables are the two branches run on the
    table [read_csv] parsed. *)
Lemma get_data_Ok read_csv url region fr :
  get_data read_csv url = Ok (region, fr) ->
  exists data,
    read_csv url = Ok data
    /\ region = df_covid19_region (range_index (rows data))
    /\ fr = df_covid19_fr (range_index (rows data)).
Proof.
  unfold get_data. intros H.
  apply bind_Ok in H. destruct H as (data & Hread & H).
  exists data. split; [exact Hread|].
  repeat (apply bind_Ok in H; destruct H as (_ & _ & H)).
  inversion H. split; reflexivity.
Qed.

(** ** The national branch *)

Lemma length_melt_var df v : List.length (melt_var df v) = List.length df.
Proof. unfold melt_var. apply length_map. Qed.

Lemma length_melt df : List.length (melt df) = (3 * List.length df)%nat.
Proof.
  unfold melt, value_vars. simpl.
  rewrite !length_app, !length_melt_var. simpl. lia.
Qed.

Lemma length_fillna v df : List.length (fillna v df) = List.length df.
Proof. unfold fillna. apply length_map. Qed.

Lemma in_melt df x v :
  In x df -> In v value_vars ->
  In (National.mk (of_str (Raw.date (snd x))) (Str (fst v)) (of_num (snd v (snd x))))
     (melt df).
Proof.
  intros Hx Hv. unfold melt. apply in_flat_map. exists v. split; [exact Hv|].
  unfold melt_var.
  apply (in_map (fun x => National.mk (of_str (Raw.date (snd x))) (Str (fst v))
                                      (of_num (snd v (snd x)))) df x Hx).
Qed.

Lemma in_fillna v df r :
  In r df ->
  In (National.mk (fill v (National.date r)) (fill v (National.type r))
                  (fill v (National.nombre r))) (fillna v df).
Proof.
  intros H. unfold fillna.
  apply (in_map (fun r => National.mk (fill v (National.date r))
                                      (fill v (National.type r))
                                      (fill v (National.nombre r))) df r H).
Qed.

Lemma fill_not_NaN v c : fill v c <> NaN.
Proof. destruct c; simpl; discriminate. Qed.

Lemma fillna_no_NaN v df r :
  In r (fillna v df) ->
  National.date r <> NaN /\ National.type r <> NaN /\ National.nombre r <> NaN.
Proof.
  unfold fillna. intros H. apply in_map_iff in H. destruct H as (r0 & <- & _).
  simpl. repeat split; apply fill_not_NaN.
Qed.

(** C6: the national table has three times as many rows as the selection,
    holds for every selected row one row per metric column, named after the
    column and carrying its value, and shows the date of every selected row
    that has one. *)
Theorem C6_melt_three_rows_per_selected_row read_csv url data region fr :
  read_csv url = Ok data ->
  get_data read_csv url = Ok (region, fr) ->
  let selected := boolean_index is_national (range_index (rows data)) in
  List.length fr = (List.length selected * 3)%nat
  /\ (forall x v, In x selected -> In v value_vars ->
        In (National.mk (fill 0 (of_str (Raw.date (snd x)))) (Str (fst v))
                        (fill 0 (of_num (snd v (snd x))))) fr)
  /\ (forall x d, In x selected -> Raw.date (snd x) = Some d ->
        exists r, In r fr /\ National.date r = Str d).
Proof.
  intros Hread Hget selected.
  apply get_data_Ok in Hget. destruct Hget as (data' & Hread' & _ & ->).
  rewrite Hread in Hread'. inversion Hread'. subst data'.
  unfold df_covid19_fr. fold selected.
  assert (Hin : forall x v, In x selected -> In v value_vars ->
            In (National.mk (fill 0 (of_str (Raw.date (snd x)))) (Str (fst v))
                            (fill 0 (of_num (snd v (snd x)))))
               (fillna 0 (melt selected))).
  { intros x v Hx Hv.
    apply (in_fillna 0 _ _ (in_melt selected x v Hx Hv)). }
  split; [|split].
  - rewrite length_fillna, length_melt. lia.
  - exact Hin.
  - intros x d Hx Hd.
    eexists. split.
    + apply (Hin x ("deces", Raw.deces) Hx). simpl. auto.
    + simpl. rewrite Hd. reflexivity.
Qed.

(** C8: in the national table every [nombre] is the value the unpivot
    produced, with 0 in place of a missing one; none is missing. *)
Theorem C8_nombre_never_null read_csv url data region fr :
  read_csv url = Ok data ->
  get_data read_csv url = Ok (region, fr) ->
  map National.nombre fr
  = map (fun r => match National.nombre r with NaN => Num 0 | c => c end)
        (melt (boolean_index is_national (range_index (rows data))))
  /\ (forall r, In r fr -> National.nombre r <> NaN).
Proof.
  intros Hread Hget.
  apply get_data_Ok in Hget. destruct Hget as (data' & Hread' & _ & ->).
  rewrite Hread in Hread'. inversion Hread'. subst data'.
  unfold df_covid19_fr. split.
  - unfold fillna. rewrite map_map. apply map_ext. intros r. simpl.
    destruct (National.nombre r); reflexivity.
  - intros r Hr. apply fillna_no_NaN in Hr. tauto.
Qed.

(** C10: [fillna] covers the whole melted table, so a selected row whose
    date is missing gives, for each of the three metric columns, a row of
    the national table whose date is 0; no date of that table is missing. *)
Theorem C10_null_date_becomes_zero read_csv url data region fr :
  read_csv url = Ok data ->
  get_data read_csv url = Ok (region, fr) ->
  (forall x v,
      In x (boolean_index is_national (range_index (rows data))) ->
      Raw.date (snd x) = None ->
      In v value_vars ->
      In (National.mk (Num 0) (Str (fst v)) (fill 0 (of_num (snd v (snd x))))) fr)
  /\ (forall r, In r fr -> National.date r <> NaN).
Proof.
  intros Hread Hget.
  apply get_data_Ok in Hget. destruct Hget as (data' & Hread' & _ & ->).
  rewrite Hread in Hread'. inversion Hread'. subst data'.
  unfold df_covid19_fr. split.
  - intros x v Hx Hd Hv.
    pose proof (in_fillna 0 _ _ (in_melt _ x v Hx Hv)) as H.
    simpl in H. rewrite Hd in H. exact H.
  - intros r Hr. apply fillna_no_NaN in Hr. tauto.
Qed.

(** ** A concrete run *)


Lemma C6_witness : List.length sample_fr = 6%nat.
Proof.
  exact (proj1 (C6_melt_three_rows_per_selected_row
                  (served sample_frame) URL_OPENCOVID19 sample_frame
                  sample_region sample_fr eq_refl eq_refl)).
Defined.

Lemma C8_witness :
  map National.nombre sample_fr = [Num 130; Num 191; Num 2; Num 3; Num 0; Num 9].
Proof.
  exact (proj1 (C8_nombre_never_null
                  (served sample_frame) URL_OPENCOVID19 sample_frame
                  sample_region sample_fr eq_refl eq_refl)).
Defined.

Lemma C10_witness :
  In (National.mk (Num 0) (Str "reanimation") (Num 9)) sample_fr.
Proof.
  refine (proj1 (C10_null_date_becomes_zero
                   (served sample_frame) URL_OPENCOVID19 sample_frame
                   sample_region sample_fr eq_refl eq_refl)
                (5%nat, nth 5 sample_rows (raw "" "" "" "" 0 0))
                ("reanimation", Raw.reanimation) _ eq_refl _).
  - simpl. auto.
  - simpl. auto.
Defined.

(** ** get_data returns on every table that has the columns *)


(** ** fatality_rate *)

Lemma in_add_columns df x :
  In x (add_columns df) ->
  exists b,
    In (fst x, b) df
    /\ Region.date (snd x) = Base.date b
    /\ Region.maille_nom (snd x) = Base.maille_nom b
    /\ Region.cas_confirmes (snd x) = Base.cas_confirmes b
    /\ Region.deces (snd x) = Base.deces b
    /\ Region.fatality_rate (snd x) = truediv (Base.deces b) (Base.cas_confirmes b).
Proof.
  unfold add_columns. intros H. apply in_map_iff in H.
  destruct H as ([i b] & <- & Hin). exists b. simpl. auto 10.
Qed.


(** *** The float64 operations never give NaN on a mantissa that is not
    negative *)








(** *** An integer below 2^53 is a finite float64 *)






(** *** The division rounds *)

(** 1 / 3 is the float64 nearest to one third, [0x3FD5555555555555]. *)
Example truediv_one_third :
  truediv (Some 1) (Some 3) = SpecFloat.S754_finite false 6004799503160661 (-54).
Proof. vm_compute. reflexivity. Qed.

(** 6 / 40 and 9 / 60 are the same float64, 0.15. *)
Example truediv_same_quotient :
  truediv (Some 6) (Some 40) = truediv (Some 9) (Some 60).
Proof. vm_compute. reflexivity. Qed.

(** *** Division by zero and NaN *)






(** ** Orders given by a comparison *)

Lemma cmp_refl {A : Type} (cmp : A -> A -> comparison) (O : order cmp) x :
  cmp x x = Eq.
Proof.
  pose proof (cmp_antisym cmp O x x) as H. destruct (cmp x x); simpl in H; congruence.
Qed.

Lemma cmp_eq_r {A : Type} (cmp : A -> A -> comparison) (O : order cmp) x y z :
  cmp y z = Eq -> cmp x y = cmp x z.
Proof.
  intros H.
  rewrite (cmp_antisym cmp O y x), (cmp_antisym cmp O z x).
  f_equal. apply (cmp_eq_l cmp O). exact H.
Qed.

Lemma leb_of_total {A : Type} (cmp : A -> A -> comparison) (O : order cmp) x y :
  leb_of cmp x y = false -> leb_of cmp y x = true.
Proof.
  unfold leb_of. rewrite (cmp_antisym cmp O x y).
  destruct (cmp x y); simpl; congruence.
Qed.

Lemma leb_of_trans {A : Type} (cmp : A -> A -> comparison) (O : order cmp) x y z :
  leb_of cmp x y = true -> leb_of cmp y z = true -> leb_of cmp x z = true.
Proof.
  unfold leb_of. intros Hxy Hyz.
  destruct (cmp x y) eqn:Exy; try discriminate.
  - rewrite (cmp_eq_l cmp O x y z Exy). exact Hyz.
  - destruct (cmp y z) eqn:Eyz; try discriminate.
    + rewrite <- (cmp_eq_r cmp O x y z Eyz), Exy. reflexivity.
    + rewrite (cmp_lt_trans cmp O x y z Exy Eyz). reflexivity.
Qed.

Lemma ascii_compare_lt_trans a b c :
  Ascii.compare a b = Lt -> Ascii.compare b c = Lt -> Ascii.compare a c = Lt.
Proof.
  unfold Ascii.compare. rewrite !N.compare_lt_iff. apply N.lt_trans.
Qed.

Lemma string_compare_lt_trans x :
  forall y z, String.compare x y = Lt -> String.compare y z = Lt ->
              String.compare x z = Lt.
Proof.
  induction x as [|a x IH]; intros [|b y] [|c z]; simpl; try congruence.
  destruct (Ascii.compare a b) eqn:Eab; try discriminate.
  - apply Ascii.compare_eq_iff in Eab. subst b.
    destruct (Ascii.compare a c); try congruence. apply IH.
  - intros _. destruct (Ascii.compare b c) eqn:Ebc; try discriminate.
    + apply Ascii.compare_eq_iff in Ebc. subst c. rewrite Eab. reflexivity.
    + intros _. rewrite (ascii_compare_lt_trans a b c Eab Ebc). reflexivity.
Qed.

Lemma order_cmp_key ascending : order (cmp_key ascending).
Proof.
  split.
  - intros [x|] [y|]; simpl; try reflexivity.
    destruct ascending; apply String.compare_antisym.
  - intros [x|] [y|] [z|]; simpl; try congruence.
    destruct ascending; intros Hxy Hyz.
    + apply (string_compare_lt_trans x y z Hxy Hyz).
    + apply (string_compare_lt_trans z y x Hyz Hxy).
  - intros [x|] [y|] z; simpl; try congruence.
    destruct ascending; intros H; apply String.compare_eq_iff in H; subst;
      reflexivity.
Qed.

(** Two keys, the first one deciding: [by=[k1, k2]]. *)
Lemma order_lexico {A K1 K2 : Type} (k1 : A -> K1) (k2 : A -> K2) c1 c2 :
  order c1 -> order c2 ->
  order (fun a b => lexico (c1 (k1 a) (k1 b)) (c2 (k2 a) (k2 b))).
Proof.
  intros O1 O2. split.
  - intros x y.
    rewrite (cmp_antisym c1 O1 (k1 x) (k1 y)), (cmp_antisym c2 O2 (k2 x) (k2 y)).
    destruct (c1 (k1 x) (k1 y)); reflexivity.
  - intros x y z. unfold lexico.
    destruct (c1 (k1 x) (k1 y)) eqn:Exy; try discriminate.
    + rewrite (cmp_eq_l c1 O1 _ _ (k1 z) Exy).
      destruct (c1 (k1 y) (k1 z)); try congruence.
      apply (cmp_lt_trans c2 O2).
    + intros _. destruct (c1 (k1 y) (k1 z)) eqn:Eyz; try discriminate.
      * rewrite <- (cmp_eq_r c1 O1 (k1 x) _ _ Eyz), Exy. reflexivity.
      * rewrite (cmp_lt_trans c1 O1 _ _ _ Exy Eyz). reflexivity.
  - intros x y z. unfold lexico.
    destruct (c1 (k1 x) (k1 y)) eqn:Exy; try discriminate.
    rewrite (cmp_eq_l c1 O1 _ _ (k1 z) Exy). intros H.
    rewrite (cmp_eq_l c2 O2 _ _ (k2 z) H). reflexivity.
Qed.

Lemma order_cmp_region : order cmp_region.
Proof.
  apply (order_lexico Base.maille_nom Base.date); apply order_cmp_key.
Qed.

Lemma cmp_key_Eq ascending a b : cmp_key ascending a b = Eq -> a = b.
Proof.
  destruct a as [x|], b as [y|]; simpl; try congruence.
  destruct ascending; intros H; apply String.compare_eq_iff in H; congruence.
Qed.

(** ** sort_values: a stable sort *)

Section SortProperties.
Context {A : Type}.
Variable cmp : A -> A -> comparison.
Hypothesis O : order cmp.

Lemma insert_perm x l : Permutation (insert cmp x l) (x :: l).
Proof.
  induction l as [|y l IH]; simpl.
  - apply Permutation_refl.
  - destruct (leb_of cmp (snd x) (snd y)).
    + apply Permutation_refl.
    + apply perm_trans with (y :: x :: l).
      * apply perm_skip. exact IH.
      * apply perm_swap.
Qed.

Lemma sort_values_perm l : Permutation (sort_values cmp l) l.
Proof.
  induction l as [|x l IH]; simpl.
  - apply perm_nil.
  - apply perm_trans with (x :: sort_values cmp l).
    + apply insert_perm.
    + apply perm_skip. exact IH.
Qed.

Lemma insert_sorted x l :
  StronglySorted (le_rows cmp) l -> StronglySorted (le_rows cmp) (insert cmp x l).
Proof.
  induction 1 as [|y l Hl IH Hy]; simpl.
  - constructor; constructor.
  - destruct (leb_of cmp (snd x) (snd y)) eqn:E.
    + constructor.
      * constructor; assumption.
      * constructor; [exact E|].
        apply Forall_forall. intros z Hz.
        rewrite Forall_forall in Hy.
        apply (leb_of_trans cmp O _ (snd y)); [exact E | apply Hy, Hz].
    + constructor; [exact IH|].
      apply Forall_forall. intros z Hz.
      apply (Permutation_in _ (insert_perm x l)) in Hz.
      destruct Hz as [<-|Hz].
      * apply (leb_of_total cmp O). exact E.
      * rewrite Forall_forall in Hy. apply Hy, Hz.
Qed.

Lemma sort_values_sorted l : StronglySorted (le_rows cmp) (sort_values cmp l).
Proof.
  induction l as [|x l IH]; simpl.
  - constructor.
  - apply insert_sorted. exact IH.
Qed.

Lemma ties_insert a x l :
  filter (ties cmp a) (insert cmp x l) = filter (ties cmp a) (x :: l).
Proof.
  induction l as [|y l IH]; simpl.
  - reflexivity.
  - destruct (leb_of cmp (snd x) (snd y)) eqn:E.
    + reflexivity.
    + simpl. rewrite IH. simpl.
      destruct (ties cmp a x) eqn:Ex; [|reflexivity].
      destruct (ties cmp a y) eqn:Ey; [|reflexivity].
      exfalso. unfold ties in Ex, Ey. unfold leb_of in E.
      destruct (cmp a (snd x)) eqn:Eax; try discriminate.
      rewrite <- (cmp_eq_l cmp O _ _ (snd y) Eax) in E.
      destruct (cmp a (snd y)); discriminate.
Qed.

(** Stability: the rows that tie on the sort keys keep their order. *)
Lemma sort_values_stable a l :
  filter (ties cmp a) (sort_values cmp l) = filter (ties cmp a) l.
Proof.
  induction l as [|x l IH]; simpl.
  - reflexivity.
  - rewrite ties_insert. simpl. rewrite IH. reflexivity.
Qed.

End SortProperties.

Lemma StronglySorted_filter {A : Type} (R R' : A -> A -> Prop) (p : A -> bool) l :
  (forall x y, p x = true -> p y = true -> R x y -> R' x y) ->
  StronglySorted R l -> StronglySorted R' (filter p l).
Proof.
  intros HR. induction 1 as [|x l Hl IH Hx]; simpl.
  - constructor.
  - destruct (p x) eqn:Ex; [|exact IH].
    constructor; [exact IH|].
    apply Forall_forall. intros y Hy. apply filter_In in Hy. destruct Hy as [Hy Hpy].
    rewrite Forall_forall in Hx. apply HR; auto.
Qed.

(** ** The regional table and the table it is computed on *)

Lemma base_table_add_columns df : base_table (add_columns df) = df.
Proof.
  unfold base_table, add_columns. rewrite map_map.
  transitivity (map (fun x : label * Base.t => x) df).
  - apply map_ext. intros [i [d m c x]]. reflexivity.
  - apply map_id.
Qed.

Lemma opt_eqb_eq a b : opt_eqb a b = true <-> a = b.
Proof.
  destruct a as [x|], b as [y|]; simpl; try (split; congruence).
  rewrite String.eqb_eq. split; congruence.
Qed.

Lemma same_keys_ties a x : same_keys a x = ties cmp_region a x.
Proof.
  unfold same_keys, ties, cmp_region, lexico.
  destruct (cmp_key true (Base.maille_nom a) (Base.maille_nom (snd x))) eqn:Em.
  - apply cmp_key_Eq in Em. rewrite Em.
    rewrite (proj2 (opt_eqb_eq _ _) eq_refl). simpl.
    destruct (cmp_key true (Base.date a) (Base.date (snd x))) eqn:Ed.
    + apply cmp_key_Eq in Ed. rewrite Ed. apply opt_eqb_eq. reflexivity.
    + destruct (opt_eqb (Base.date a) (Base.date (snd x))) eqn:E; [|reflexivity].
      apply opt_eqb_eq in E. rewrite E, (cmp_refl _ (order_cmp_key true)) in Ed.
      discriminate.
    + destruct (opt_eqb (Base.date a) (Base.date (snd x))) eqn:E; [|reflexivity].
      apply opt_eqb_eq in E. rewrite E, (cmp_refl _ (order_cmp_key true)) in Ed.
      discriminate.
  - destruct (opt_eqb (Base.maille_nom a) (Base.maille_nom (snd x))) eqn:E;
      [|reflexivity].
    apply opt_eqb_eq in E. rewrite E, (cmp_refl _ (order_cmp_key true)) in Em.
    discriminate.
  - destruct (opt_eqb (Base.maille_nom a) (Base.maille_nom (snd x))) eqn:E;
      [|reflexivity].
    apply opt_eqb_eq in E. rewrite E, (cmp_refl _ (order_cmp_key true)) in Em.
    discriminate.
Qed.

Lemma eq_str_eq c s : eq_str c s = true <-> c = Some s.
Proof.
  destruct c as [x|]; simpl.
  - rewrite String.eqb_eq. split; congruence.
  - split; discriminate.
Qed.

Lemma sorted_region_by_date data g :
  StronglySorted date_le (filter (in_region g) (sorted_region data)).
Proof.
  apply (StronglySorted_filter (le_rows cmp_region)).
  - intros x y Hx Hy. unfold in_region in Hx, Hy.
    apply eq_str_eq in Hx. apply eq_str_eq in Hy.
    unfold le_rows, leb_of, cmp_region, date_le. rewrite Hx, Hy. simpl.
    assert (E : String.compare g g = Eq)
      by apply (cmp_refl _ (order_cmp_key true) (Some g)).
    rewrite E. simpl.
    destruct (cmp_key true (Base.date (snd x)) (Base.date (snd y)));
      congruence.
  - apply sort_values_sorted. exact order_cmp_region.
Qed.

(** C3: the regional table, read on its four input columns, is the selected
    and projected rows sorted by [(maille_nom, date)]; the delta and rank
    columns are computed on that sorted table; within every region the
    dates ascend; and the rows with equal [(maille_nom, date)] stand in the
    order they have in the input. *)
Theorem C3_sorted_by_region_and_date_stable read_csv url data region fr :
  read_csv url = Ok data ->
  get_data read_csv url = Ok (region, fr) ->
  let selected := project (boolean_index is_regional (range_index (rows data))) in
  let sorted := base_table region in
  region = add_columns sorted
  /\ Permutation sorted selected
  /\ StronglySorted (le_rows cmp_region) sorted
  /\ (forall g, StronglySorted date_le (filter (in_region g) sorted))
  /\ (forall a, filter (same_keys a) sorted = filter (same_keys a) selected).
Proof.
  intros Hread Hget selected sorted.
  apply get_data_Ok in Hget. destruct Hget as (data' & Hread' & Hregion & _).
  rewrite Hread in Hread'. inversion Hread'. subst data'.
  assert (Hs : sorted = sorted_region (range_index (rows data))).
  { unfold sorted. rewrite Hregion. apply base_table_add_columns. }
  rewrite Hs. repeat split.
  - exact Hregion.
  - apply sort_values_perm.
  - apply sort_values_sorted. exact order_cmp_region.
  - intros g. apply sorted_region_by_date.
  - intros a.
    rewrite !(filter_ext _ _ (same_keys_ties a)).
    apply sort_values_stable. exact order_cmp_region.
Qed.

Lemma C3_witness : StronglySorted (le_rows cmp_region) (base_table sample_region).
Proof.
  exact (proj1 (proj2 (proj2 (C3_sorted_by_region_and_date_stable
                  (served sample_frame) URL_OPENCOVID19 sample_frame
                  sample_region sample_fr eq_refl eq_refl)))).
Defined.

(** ** Index labels are unique *)

Lemma map_fst_range_index {A : Type} (l : list A) :
  map fst (range_index l) = seq 0 (List.length l).
Proof.
  unfold range_index.
  generalize 0%nat. induction l as [|x l IH]; intros n; simpl.
  - reflexivity.
  - rewrite IH. reflexivity.
Qed.

Lemma NoDup_map_filter {A B : Type} (f : A -> B) (p : A -> bool) l :
  NoDup (map f l) -> NoDup (map f (filter p l)).
Proof.
  induction l as [|x l IH]; simpl; intros H.
  - constructor.
  - inversion H as [|? ? Hx Hl]. subst.
    destruct (p x); simpl; [constructor|]; auto.
    intros Hin. apply Hx. apply in_map_iff in Hin.
    destruct Hin as (y & Hy & Hin). apply filter_In in Hin.
    apply in_map_iff. exists y. tauto.
Qed.

Lemma map_fst_project df : map fst (project df) = map fst df.
Proof. unfold project. rewrite map_map. reflexivity. Qed.

Lemma NoDup_sorted_region rows :
  NoDup (map fst (sorted_region (range_index rows))).
Proof.
  unfold sorted_region.
  apply (Permutation_NoDup
           (l := map fst (project (boolean_index is_regional (range_index rows))))).
  - apply Permutation_map, Permutation_sym, sort_values_perm.
  - rewrite map_fst_project. unfold boolean_index.
    apply NoDup_map_filter. rewrite map_fst_range_index. apply seq_NoDup.
Qed.

(** ** Assigning a Series as a column *)

Lemma loc_skip {A : Type} (s : Series (option A)) i j v :
  i <> j -> loc ((j, v) :: s) i = loc s i.
Proof.
  intros H. unfold loc. simpl.
  destruct (Nat.eqb_spec i j); [contradiction|reflexivity].
Qed.

(** A Series that carries the labels of the table, in its order, gives each
    row the value at the row's position. *)
Lemma loc_aligned {A B : Type} (df : list (label * B)) :
  forall s : Series (option A),
    NoDup (map fst df) ->
    map fst s = map fst df ->
    map (fun x => (x, loc s (fst x))) df = combine df (map snd s).
Proof.
  induction df as [|[i b] df IH]; intros [|[j v] s] Hnd Hlab; simpl in *;
    try discriminate; try reflexivity.
  inversion Hlab. subst j. inversion Hnd as [|? ? Hi Hdf]. subst.
  f_equal.
  - unfold loc. simpl. rewrite Nat.eqb_refl. reflexivity.
  - rewrite <- (IH s Hdf) by assumption.
    apply map_ext_in. intros x Hx. f_equal. apply loc_skip.
    intros E. apply Hi. rewrite <- E. apply in_map. exact Hx.
Qed.

(** A Series that carries the labels of the rows a mask selects gives the
    other rows a missing value. *)
Lemma loc_outside {A B : Type} (q : label * B -> bool) (df : list (label * B))
      (s : Series (option A)) x :
  NoDup (map fst df) ->
  map fst s = map fst (filter q df) ->
  In x df -> q x = false -> loc s (fst x) = None.
Proof.
  intros Hnd Hlab Hx Hq.
  assert (Hnot : ~ In (fst x) (map fst s)).
  { rewrite Hlab. intros Hin. apply in_map_iff in Hin.
    destruct Hin as (y & Hy & Hin). apply filter_In in Hin. destruct Hin as [Hin Hqy].
    assert (y = x).
    { clear - Hnd Hx Hin Hy. induction df as [|z df IH]; [contradiction|].
      simpl in Hnd. inversion Hnd as [|? ? Hz Hdf]. subst.
      destruct Hx as [->|Hx], Hin as [->|Hin]; auto.
      - exfalso. apply Hz. rewrite <- Hy. apply in_map. exact Hin.
      - exfalso. apply Hz. rewrite Hy. apply in_map. exact Hx. }
    congruence. }
  clear - Hnot. induction s as [|[j v] s IH]; [reflexivity|].
  simpl in Hnot. rewrite loc_skip; [apply IH|]; intuition.
Qed.

(** ** groupby(...).diff() *)

Section DiffProperties.
Context {A : Type}.
Variable key : A -> option string.
Variable val : A -> option Z.

Lemma map_fst_diff_from df :
  forall seen, map fst (diff_from key val seen df) = map fst df.
Proof.
  induction df as [|[i r] df IH]; intros seen; simpl.
  - reflexivity.
  - rewrite IH. reflexivity.
Qed.

(** Read on the rows of one group, the grouped diff is the diff of the
    group's own sequence: no value of another group enters it. *)
Lemma diff_from_group g df :
  forall seen,
    map snd (filter (fun xv => in_group key g (snd (fst xv)))
                    (combine df (map snd (diff_from key val seen df))))
    = diff_with val (find (in_group key g) seen)
                (map snd (filter (fun x => in_group key g (snd x)) df)).
Proof.
  induction df as [|[i r] df IH]; intros seen; simpl.
  - reflexivity.
  - destruct (in_group key g r) eqn:E; simpl.
    + rewrite IH. simpl. rewrite E.
      unfold in_group in E. apply eq_str_eq in E. rewrite E. reflexivity.
    + rewrite IH. simpl. rewrite E. reflexivity.
Qed.

Lemma diff_with_first l x :
  nth_error l 0 = Some x -> nth_error (diff_with val None l) 0 = Some None.
Proof. destruct l; simpl; [discriminate|reflexivity]. Qed.

Lemma diff_with_next l :
  forall prev k p x,
    nth_error l k = Some p -> nth_error l (S k) = Some x ->
    nth_error (diff_with val prev l) (S k) = Some (sub (val x) (val p)).
Proof.
  induction l as [|r l IH]; intros prev k p x Hp Hx.
  - destruct k; discriminate.
  - destruct k as [|k]; simpl in *.
    + inversion Hp. subst r. destruct l as [|y l]; [discriminate|].
      simpl in *. inversion Hx. reflexivity.
    + apply (IH (Some r) k p x Hp Hx).
Qed.

End DiffProperties.

(** ** The rows of one region *)

Lemma rows_of_base g region :
  map base_of (rows_of g region)
  = map snd (filter (in_region g) (base_table region)).
Proof.
  unfold rows_of, base_table. rewrite filter_map_swap, !map_map. reflexivity.
Qed.

Lemma StronglySorted_map {A B : Type} (R : B -> B -> Prop) (f : A -> B) l :
  StronglySorted (fun x y => R (f x) (f y)) l -> StronglySorted R (map f l).
Proof.
  induction 1 as [|x l Hl IH Hx]; simpl; constructor; auto.
  apply Forall_forall. intros y Hy. apply in_map_iff in Hy.
  destruct Hy as (z & <- & Hz). rewrite Forall_forall in Hx. auto.
Qed.

Lemma rows_of_chronological data g :
  StronglySorted chronological (rows_of g (df_covid19_region data)).
Proof.
  unfold rows_of. apply StronglySorted_map.
  pose proof (sorted_region_by_date data g) as H.
  rewrite <- (base_table_add_columns (sorted_region data)) in H.
  fold (df_covid19_region data) in H.
  unfold base_table in H. rewrite filter_map_swap in H.
  remember (filter (fun a => in_region g (fst a, base_of (snd a)))
                   (df_covid19_region data)) as l eqn:El.
  assert (E : filter (of_region g) (df_covid19_region data) = l).
  { rewrite El. apply filter_ext. intros x. reflexivity. }
  rewrite E. clear El E.
  induction l as [|x l IH]; simpl in *.
  - constructor.
  - inversion H as [|? ? Hl Hx]. subst. constructor; [apply IH, Hl|].
    rewrite Forall_forall in *. intros y Hy.
    apply (Hx (fst y, base_of (snd y))).
    apply (in_map (fun x => (fst x, base_of (snd x))) l y Hy).
Qed.

(** A column assigned from a Series that carries the labels of the table,
    read on the rows of one region. *)
Lemma column_of_region {V : Type} (col : Region.t -> option V)
      (s : Series (option V)) g df :
  NoDup (map fst df) ->
  map fst s = map fst df ->
  (forall x, In x (add_columns df) -> col (snd x) = loc s (fst x)) ->
  map col (rows_of g (add_columns df))
  = map snd (filter (fun xv => in_region g (fst xv)) (combine df (map snd s))).
Proof.
  intros Hnd Hlab Hcol.
  rewrite <- (loc_aligned df s Hnd Hlab).
  rewrite filter_map_swap, map_map. simpl.
  unfold rows_of. rewrite map_map.
  transitivity (map (fun x => loc s (fst x)) (filter (of_region g) (add_columns df))).
  { apply map_ext_in. intros x Hx. apply filter_In in Hx. apply Hcol. tauto. }
  unfold add_columns. rewrite filter_map_swap, map_map. simpl.
  f_equal.
Qed.

(** ** delta_deces and delta_cas_confirmes *)

Lemma delta_deces_of_region data g :
  let df := sorted_region (range_index data) in
  map Region.delta_deces (rows_of g (add_columns df))
  = diff_with Base.deces None (map snd (filter (in_region g) df)).
Proof.
  intros df.
  rewrite (column_of_region Region.delta_deces
             (groupby_diff Base.maille_nom Base.deces df) g df).
  - apply (diff_from_group Base.maille_nom Base.deces g df []).
  - apply NoDup_sorted_region.
  - apply map_fst_diff_from.
  - unfold add_columns. intros x Hx. apply in_map_iff in Hx.
    destruct Hx as (y & <- & _). reflexivity.
Qed.

Lemma delta_cas_confirmes_of_region data g :
  let df := sorted_region (range_index data) in
  map Region.delta_cas_confirmes (rows_of g (add_columns df))
  = diff_with Base.cas_confirmes None (map snd (filter (in_region g) df)).
Proof.
  intros df.
  rewrite (column_of_region Region.delta_cas_confirmes
             (groupby_diff Base.maille_nom Base.cas_confirmes df) g df).
  - apply (diff_from_group Base.maille_nom Base.cas_confirmes g df []).
  - apply NoDup_sorted_region.
  - apply map_fst_diff_from.
  - unfold add_columns. intros x Hx. apply in_map_iff in Hx.
    destruct Hx as (y & <- & _). reflexivity.
Qed.

(** C4, as stated, fails: when a count is missing on a day, the deltas of
    that day and of the next one are missing too, though neither is the
    first row of the region. *)
Lemma C4_counterexample :
  exists region fr,
    get_data (served missing_count) URL_OPENCOVID19 = Ok (region, fr)
    /\ map (fun x => (Region.date x, Region.deces x, Region.delta_deces x,
                      Region.delta_cas_confirmes x))
           (rows_of "Corse" region)
       = [(Some "2020-03-01", Some 1, None, None);
          (Some "2020-03-02", None, None, None);
          (Some "2020-03-03", Some 4, None, None)].
Proof.
  eexists. eexists. split; reflexivity.
Qed.

(** C4, amended: the rows of a region stand in the regional table by
    ascending date; [delta_deces] and [delta_cas_confirmes] are missing on
    the first of them, and on every other one they are the row's count
    minus the count of the previous row of the same region: a number when
    both counts are present, missing when either is. *)
Theorem C4_delta_within_region read_csv url region fr :
  get_data read_csv url = Ok (region, fr) ->
  forall g,
    let rs := rows_of g region in
    StronglySorted chronological rs
    /\ (forall x, nth_error rs 0 = Some x ->
          Region.delta_deces x = None /\ Region.delta_cas_confirmes x = None)
    /\ (forall k p x,
          nth_error rs k = Some p -> nth_error rs (S k) = Some x ->
          Region.delta_deces x = sub (Region.deces x) (Region.deces p)
          /\ Region.delta_cas_confirmes x
             = sub (Region.cas_confirmes x) (Region.cas_confirmes p)).
Proof.
  intros Hget g rs.
  apply get_data_Ok in Hget. destruct Hget as (data & _ & Hregion & _).
  unfold rs. rewrite Hregion. clear rs Hregion.
  unfold df_covid19_region.
  set (df := sorted_region (range_index (rows data))).
  set (rs := rows_of g (add_columns df)).
  pose proof (delta_deces_of_region (rows data) g) as Hd.
  pose proof (delta_cas_confirmes_of_region (rows data) g) as Hc.
  simpl in Hd, Hc. fold df in Hd, Hc. fold rs in Hd, Hc.
  assert (Hb : map base_of rs = map snd (filter (in_region g) df)).
  { unfold rs. rewrite rows_of_base, base_table_add_columns. reflexivity. }
  rewrite <- Hb in Hd, Hc.
  split; [|split].
  - apply rows_of_chronological.
  - intros x Hx.
    assert (Hbx : nth_error (map base_of rs) 0 = Some (base_of x))
      by (rewrite nth_error_map, Hx; reflexivity).
    pose proof (diff_with_first Base.deces _ _ Hbx) as H1.
    pose proof (diff_with_first Base.cas_confirmes _ _ Hbx) as H2.
    rewrite <- Hd in H1. rewrite <- Hc in H2.
    rewrite nth_error_map, Hx in H1, H2. simpl in H1, H2.
    split; congruence.
  - intros k p x Hp Hx.
    assert (Hbp : nth_error (map base_of rs) k = Some (base_of p))
      by (rewrite nth_error_map, Hp; reflexivity).
    assert (Hbx : nth_error (map base_of rs) (S k) = Some (base_of x))
      by (rewrite nth_error_map, Hx; reflexivity).
    pose proof (diff_with_next Base.deces _ None k _ _ Hbp Hbx) as H1.
    pose proof (diff_with_next Base.cas_confirmes _ None k _ _ Hbp Hbx) as H2.
    rewrite <- Hd in H1. rewrite <- Hc in H2.
    rewrite nth_error_map, Hx in H1, H2. simpl in H1, H2.
    split; congruence.
Qed.

Lemma C4_witness : StronglySorted chronological (rows_of "Grand Est" sample_region).
Proof.
  exact (proj1 (C4_delta_within_region (served sample_frame) URL_OPENCOVID19
                  sample_region sample_fr eq_refl "Grand Est")).
Defined.

(** ** Ranks with method "first" on a list of values *)

Lemma nlt_app v l1 l2 : nlt v (l1 ++ l2) = (nlt v l1 + nlt v l2)%nat.
Proof. unfold nlt. rewrite filter_app, length_app. reflexivity. Qed.

Lemma neq_app v l1 l2 : neq v (l1 ++ l2) = (neq v l1 + neq v l2)%nat.
Proof. unfold neq. rewrite filter_app, length_app. reflexivity. Qed.

Lemma nlt_rev v l : nlt v (rev l) = nlt v l.
Proof. unfold nlt. rewrite filter_rev, length_rev. reflexivity. Qed.

Lemma neq_rev v l : neq v (rev l) = neq v l.
Proof. unfold neq. rewrite filter_rev, length_rev. reflexivity. Qed.

Lemma neq_cons_same v l : neq v (v :: l) = S (neq v l).
Proof. unfold neq. simpl. rewrite Z.eqb_refl. reflexivity. Qed.

Lemma nlt_neq_le v l : (nlt v l + neq v l <= List.length l)%nat.
Proof.
  unfold nlt, neq. induction l as [|w l IH]; simpl; [lia|].
  destruct (Z.ltb_spec w v), (Z.eqb_spec w v); simpl; lia.
Qed.

Lemma nlt_mono v w l : v < w -> (nlt v l + neq v l <= nlt w l)%nat.
Proof.
  intros H. unfold nlt, neq. induction l as [|u l IH]; simpl; [lia|].
  destruct (Z.ltb_spec u v), (Z.eqb_spec u v), (Z.ltb_spec u w); simpl; lia.
Qed.

Lemma length_ranks_from all post :
  forall before, List.length (ranks_from all before post) = List.length post.
Proof.
  induction post as [|v post IH]; intros before; simpl; [reflexivity|].
  rewrite IH. reflexivity.
Qed.

(** Every rank belongs to one occurrence of a value, and counts the values
    before that occurrence. *)
Lemma in_ranks_from all post :
  forall before n,
    In n (ranks_from all before post) ->
    exists w p1 p2,
      post = p1 ++ w :: p2
      /\ n = (1 + nlt w all + neq w (rev p1 ++ before))%nat.
Proof.
  induction post as [|v post IH]; intros before n Hn; simpl in Hn.
  - contradiction.
  - destruct Hn as [<-|Hn].
    + exists v, [], post. split; reflexivity.
    + apply IH in Hn. destruct Hn as (w & p1 & p2 & -> & ->).
      exists w, (v :: p1), p2. split; [reflexivity|].
      simpl. rewrite <- app_assoc. reflexivity.
Qed.

Lemma ranks_from_range all post :
  forall before n,
    all = rev before ++ post ->
    In n (ranks_from all before post) ->
    (1 <= n <= List.length all)%nat.
Proof.
  intros before n Hall Hn.
  apply in_ranks_from in Hn. destruct Hn as (w & p1 & p2 & -> & ->).
  pose proof (nlt_neq_le w all) as H.
  assert (E : neq w all = (neq w before + neq w p1 + S (neq w p2))%nat).
  { rewrite Hall, !neq_app, neq_rev, neq_cons_same. lia. }
  rewrite neq_app, neq_rev. lia.
Qed.

Lemma ranks_from_NoDup all post :
  forall before,
    all = rev before ++ post ->
    NoDup (ranks_from all before post).
Proof.
  induction post as [|v post IH]; intros before Hall; simpl.
  - constructor.
  - assert (Hall' : all = rev (v :: before) ++ post).
    { rewrite Hall. simpl. rewrite <- app_assoc. reflexivity. }
    constructor; [|apply IH, Hall'].
    intros Hn. apply in_ranks_from in Hn.
    destruct Hn as (w & p1 & p2 & Hpost & Hrank).
    assert (Ev : neq v all = (neq v before + S (neq v post))%nat).
    { rewrite Hall, neq_app, neq_rev, neq_cons_same. lia. }
    assert (Ew : neq w all = (neq w (v :: before) + neq w p1 + S (neq w p2))%nat).
    { rewrite Hall', Hpost, !neq_app, neq_rev, neq_cons_same. lia. }
    rewrite !neq_app, neq_rev in Hrank.
    destruct (Z.lt_total v w) as [Hlt|[Heq|Hgt]].
    + pose proof (nlt_mono v w all Hlt). lia.
    + subst w. rewrite neq_cons_same in Hrank. lia.
    + pose proof (nlt_mono w v all Hgt). lia.
Qed.

(** The ranks of a list of values are the numbers from 1 to its length,
    each once. *)
Lemma ranks_from_Permutation l :
  Permutation (ranks_from l [] l) (seq 1 (List.length l)).
Proof.
  apply NoDup_Permutation_bis.
  - apply ranks_from_NoDup. reflexivity.
  - rewrite length_seq, length_ranks_from. lia.
  - intros n Hn. apply in_seq.
    apply (ranks_from_range l l [] n eq_refl) in Hn. lia.
Qed.

(** ** groupby(...).rank(method="first") *)

Lemma dropna_filter {A X : Type} (f : A -> option X) (p : A -> bool) l :
  (forall x, In x l -> p x = false -> f x = None) ->
  dropna (map f l) = dropna (map f (filter p l)).
Proof.
  induction l as [|x l IH]; intros H; simpl; [reflexivity|].
  destruct (p x) eqn:E; simpl.
  - rewrite IH; [reflexivity|]. intros y Hy. apply H. right. exact Hy.
  - rewrite (H x (or_introl eq_refl) E). simpl.
    apply IH. intros y Hy. apply H. right. exact Hy.
Qed.

Lemma filter_comm {A : Type} (p q : A -> bool) l :
  filter p (filter q l) = filter q (filter p l).
Proof.
  induction l as [|x l IH]; simpl; [reflexivity|].
  destruct (p x) eqn:Ep, (q x) eqn:Eq; simpl; rewrite ?Ep, ?Eq, IH; reflexivity.
Qed.

Section RankProperties.
Context {A : Type}.
Variable key : A -> option string.
Variable val : A -> option Z.

Lemma count_lt_group g v l :
  count (fun r => in_group key g r && val_ltb val v r) l = nlt v (gvals key val g l).
Proof.
  unfold count, nlt, gvals, val_ltb. induction l as [|r l IH]; simpl; [reflexivity|].
  destruct (in_group key g r); simpl; [|exact IH].
  destruct (val r) as [w|]; simpl; [|exact IH].
  destruct (w <? v); simpl; rewrite IH; reflexivity.
Qed.

Lemma count_eq_group g v l :
  count (fun r => in_group key g r && val_eqb val v r) l = neq v (gvals key val g l).
Proof.
  unfold count, neq, gvals, val_eqb. induction l as [|r l IH]; simpl; [reflexivity|].
  destruct (in_group key g r); simpl; [|exact IH].
  destruct (val r) as [w|]; simpl; [|exact IH].
  destruct (w =? v); simpl; rewrite IH; reflexivity.
Qed.

Lemma map_fst_rank_from all df :
  forall before, map fst (rank_from key val all before df) = map fst df.
Proof.
  induction df as [|[i r] df IH]; intros before; simpl.
  - reflexivity.
  - rewrite IH. reflexivity.
Qed.

(** Read on the rows of one group, the grouped ranks are the ranks of the
    group's own values. *)
Lemma rank_from_group g all df :
  forall before,
    dropna (map snd (filter (fun xv => in_group key g (snd (fst xv)))
                            (combine df (map snd (rank_from key val all before df)))))
    = ranks_from (gvals key val g all) (gvals key val g before)
                 (gvals key val g (map snd df)).
Proof.
  induction df as [|[i r] df IH]; intros before; simpl.
  - reflexivity.
  - destruct (in_group key g r) eqn:E; simpl.
    + rewrite IH. unfold rank_first. simpl. rewrite E.
      unfold in_group in E. apply eq_str_eq in E. rewrite E.
      destruct (val r) as [v|]; simpl.
      * rewrite count_lt_group, count_eq_group. reflexivity.
      * reflexivity.
    + rewrite IH. simpl. rewrite E. reflexivity.
Qed.

Lemma in_combine_rank_from all df :
  forall before x o,
    In (x, o) (combine df (map snd (rank_from key val all before df))) ->
    exists before', o = rank_first key val all before' (snd x).
Proof.
  induction df as [|[i r] df IH]; intros before x o H; simpl in H.
  - contradiction.
  - destruct H as [H|H].
    + inversion H. subst. exists before. reflexivity.
    + apply (IH _ _ _ H).
Qed.

Lemma length_gvals_all g l :
  (forall r, In r l -> in_group key g r = true -> val r <> None) ->
  List.length (gvals key val g l) = List.length (filter (in_group key g) l).
Proof.
  unfold gvals. induction l as [|r l IH]; intros H; simpl; [reflexivity|].
  destruct (in_group key g r) eqn:E; simpl.
  - destruct (val r) as [v|] eqn:Ev.
    + simpl. rewrite IH; [reflexivity|]. intros y Hy. apply H. right. exact Hy.
    + exfalso. apply (H r (or_introl eq_refl) E Ev).
  - apply IH. intros y Hy. apply H. right. exact Hy.
Qed.

End RankProperties.

(** ** days_after_5_deaths and days_after_50_confirmed *)

Lemma of_region_base g (x : label * Region.t) :
  of_region g x = in_region g (fst x, base_of (snd x)).
Proof. reflexivity. Qed.

Lemma filter_base_table (p : label * Base.t -> bool) region :
  map (fun x => (fst x, base_of (snd x)))
      (filter (fun x => p (fst x, base_of (snd x))) region)
  = filter p (base_table region).
Proof. unfold base_table. rewrite filter_map_swap. reflexivity. Qed.

Section DaysAfter.
Variable val : Base.t -> option Z.
Variable rval : Region.t -> option Z.
Variable col : Region.t -> option nat.
Variable n : Z.
Variable df : list (label * Base.t).

Hypothesis Hnd : NoDup (map fst df).
Hypothesis Hval : forall r, rval r = val (base_of r).
Hypothesis Hcol :
  forall x, In x (add_columns df) -> col (snd x) = loc (days_after val n df) (fst x).

Lemma map_fst_ranks :
  map fst (days_after val n df) = map fst (filter (above_row val n) df).
Proof. unfold days_after, groupby_rank. apply map_fst_rank_from. Qed.

Lemma days_column g :
  map col (rows_of g (add_columns df))
  = map (fun x => loc (days_after val n df) (fst x)) (filter (in_region g) df).
Proof.
  unfold rows_of. rewrite map_map.
  transitivity (map (fun x => loc (days_after val n df) (fst x))
                    (filter (of_region g) (add_columns df))).
  { apply map_ext_in. intros x Hx. apply filter_In in Hx. apply Hcol. tauto. }
  rewrite <- (base_table_add_columns df) at 2.
  rewrite <- (filter_base_table (in_region g)), map_map. reflexivity.
Qed.

Lemma days_none x :
  In x (add_columns df) -> gt (rval (snd x)) n = false -> col (snd x) = None.
Proof.
  intros Hx Hq. rewrite (Hcol x Hx).
  apply in_add_columns in Hx. destruct Hx as (b & Hb & Hd & Hm & Hc & He & _).
  assert (E : base_of (snd x) = b).
  { destruct b. unfold base_of. simpl in *. congruence. }
  apply (loc_outside (above_row val n) df (days_after val n df) (fst x, b)
                     Hnd map_fst_ranks Hb).
  unfold above_row. simpl. rewrite <- E, <- Hval. exact Hq.
Qed.

Lemma days_ranks g :
  dropna (map col (rows_of g (add_columns df)))
  = ranks_from (gvals Base.maille_nom val g (map snd (above val n df))) []
               (gvals Base.maille_nom val g (map snd (above val n df))).
Proof.
  rewrite days_column.
  rewrite (dropna_filter _ (above_row val n)).
  2:{ intros x Hx Hq. apply filter_In in Hx.
      apply (loc_outside (above_row val n) df (days_after val n df) x
                         Hnd map_fst_ranks); tauto. }
  rewrite filter_comm.
  change (filter (above_row val n) df) with (above val n df).
  assert (Hal : map (fun x => (x, loc (days_after val n df) (fst x))) (above val n df)
                = combine (above val n df) (map snd (days_after val n df))).
  { apply loc_aligned.
    - unfold above, boolean_index. apply NoDup_map_filter. exact Hnd.
    - apply map_fst_ranks. }
  transitivity
    (dropna (map snd (filter (fun xv => in_region g (fst xv))
                             (map (fun x => (x, loc (days_after val n df) (fst x)))
                                  (above val n df))))).
  { rewrite filter_map_swap, map_map. reflexivity. }
  rewrite Hal. unfold days_after, groupby_rank.
  apply (rank_from_group Base.maille_nom val g (map snd (above val n df))
                         (above val n df) []).
Qed.

Lemma days_count g :
  List.length (gvals Base.maille_nom val g (map snd (above val n df)))
  = List.length (filter (fun r => gt (rval r) n) (rows_of g (add_columns df))).
Proof.
  rewrite length_gvals_all.
  2:{ intros r Hr _. apply in_map_iff in Hr. destruct Hr as (x & <- & Hx).
      apply filter_In in Hx. destruct Hx as [_ Hx].
      destruct (val (snd x)); [discriminate|discriminate Hx]. }
  unfold rows_of. rewrite !filter_map_swap, !length_map.
  unfold above, boolean_index. rewrite filter_comm.
  rewrite <- (base_table_add_columns df) at 1.
  rewrite <- (filter_base_table
                (fun x => in_group Base.maille_nom g (snd x))).
  rewrite filter_map_swap, !length_map.
  f_equal.
  transitivity (filter (fun a : label * Region.t => gt (rval (snd a)) n)
                       (filter (fun x : label * Region.t =>
                                  in_group Base.maille_nom g
                                           (snd (fst x, base_of (snd x))))
                               (add_columns df))).
  - apply filter_ext. intros x. simpl. rewrite Hval. reflexivity.
  - f_equal.
Qed.

Lemma days_some g r :
  In r (rows_of g (add_columns df)) -> gt (rval r) n = true -> col r <> None.
Proof.
  unfold rows_of. intros Hr Hq. apply in_map_iff in Hr.
  destruct Hr as (x & <- & Hx). apply filter_In in Hx. destruct Hx as [Hx Hg].
  rewrite (Hcol x Hx).
  pose proof (in_add_columns df x Hx) as (b & Hb & Hd & Hm & Hc & He & _).
  assert (E : base_of (snd x) = b).
  { destruct b. unfold base_of. simpl in *. congruence. }
  assert (Hsel : In (fst x, b) (above val n df)).
  { apply filter_In. split; [exact Hb|]. simpl. rewrite <- E, <- Hval. exact Hq. }
  assert (Hal : map (fun x => (x, loc (days_after val n df) (fst x))) (above val n df)
                = combine (above val n df) (map snd (days_after val n df))).
  { apply loc_aligned.
    - unfold above, boolean_index. apply NoDup_map_filter. exact Hnd.
    - apply map_fst_ranks. }
  pose proof (in_map (fun x => (x, loc (days_after val n df) (fst x)))
                     (above val n df) _ Hsel) as Hin.
  rewrite Hal in Hin. simpl in Hin.
  apply in_combine_rank_from in Hin. destruct Hin as (before & ->).
  unfold rank_first. simpl.
  unfold of_region in Hg. apply eq_str_eq in Hg. rewrite Hm in Hg. rewrite Hg.
  rewrite Hval, E in Hq. destruct (val b); [discriminate|discriminate Hq].
Qed.

End DaysAfter.

Lemma days_after_5_deaths_assigned df x :
  In x (add_columns df) ->
  Region.days_after_5_deaths (snd x)
  = loc (days_after Base.deces 5 df) (fst x).
Proof.
  unfold add_columns. intros Hx. apply in_map_iff in Hx.
  destruct Hx as (y & <- & _). reflexivity.
Qed.

Lemma days_after_50_confirmed_assigned df x :
  In x (add_columns df) ->
  Region.days_after_50_confirmed (snd x)
  = loc (days_after Base.cas_confirmes 50 df) (fst x).
Proof.
  unfold add_columns. intros Hx. apply in_map_iff in Hx.
  destruct Hx as (y & <- & _). reflexivity.
Qed.

(** C7: in every region the values of [days_after_5_deaths] are the numbers
    1, ..., k, each once, k being the number of rows of the region with
    [deces > 5]; a row of the table has no value when its [deces] is not
    above 5, and a row of the region has one when it is. The same holds of
    [days_after_50_confirmed] with [cas_confirmes > 50]. *)
Theorem C7_days_after_contiguous read_csv url region fr :
  get_data read_csv url = Ok (region, fr) ->
  (forall g,
     let rs := rows_of g region in
     Permutation (dropna (map Region.days_after_5_deaths rs))
                 (seq 1 (List.length (filter (fun r => gt (Region.deces r) 5) rs)))
     /\ Permutation (dropna (map Region.days_after_50_confirmed rs))
                    (seq 1 (List.length
                              (filter (fun r => gt (Region.cas_confirmes r) 50) rs)))
     /\ (forall r, In r rs ->
           (gt (Region.deces r) 5 = true -> Region.days_after_5_deaths r <> None)
           /\ (gt (Region.cas_confirmes r) 50 = true ->
               Region.days_after_50_confirmed r <> None)))
  /\ (forall x, In x region ->
        (gt (Region.deces (snd x)) 5 = false ->
         Region.days_after_5_deaths (snd x) = None)
        /\ (gt (Region.cas_confirmes (snd x)) 50 = false ->
            Region.days_after_50_confirmed (snd x) = None)).
Proof.
  intros Hget.
  apply get_data_Ok in Hget. destruct Hget as (data & _ & -> & _).
  unfold df_covid19_region.
  set (df := sorted_region (range_index (rows data))).
  pose proof (NoDup_sorted_region (rows data)) as Hnd. fold df in Hnd.
  assert (H5 : forall r, Region.deces r = Base.deces (base_of r)) by reflexivity.
  assert (H50 : forall r, Region.cas_confirmes r = Base.cas_confirmes (base_of r))
    by reflexivity.
  split.
  - intros g. split; [|split].
    + rewrite (days_ranks Base.deces Region.days_after_5_deaths 5 df
                 Hnd (days_after_5_deaths_assigned df) g).
      rewrite <- (days_count Base.deces Region.deces 5 df H5 g).
      apply ranks_from_Permutation.
    + rewrite (days_ranks Base.cas_confirmes Region.days_after_50_confirmed 50 df
                 Hnd (days_after_50_confirmed_assigned df) g).
      rewrite <- (days_count Base.cas_confirmes Region.cas_confirmes 50 df H50 g).
      apply ranks_from_Permutation.
    + intros r Hr. split.
      * apply (days_some Base.deces Region.deces Region.days_after_5_deaths 5 df
                 Hnd H5 (days_after_5_deaths_assigned df) g r Hr).
      * apply (days_some Base.cas_confirmes Region.cas_confirmes
                 Region.days_after_50_confirmed 50 df
                 Hnd H50 (days_after_50_confirmed_assigned df) g r Hr).
  - intros x Hx. split.
    + apply (days_none Base.deces Region.deces Region.days_after_5_deaths 5 df
               Hnd H5 (days_after_5_deaths_assigned df) x Hx).
    + apply (days_none Base.cas_confirmes Region.cas_confirmes
               Region.days_after_50_confirmed 50 df
               Hnd H50 (days_after_50_confirmed_assigned df) x Hx).
Qed.

Lemma C7_witness :
  Permutation (dropna (map Region.days_after_5_deaths
                           (rows_of "Grand Est" sample_region)))
              (seq 1 2).
Proof.
  exact (proj1 (proj1 (C7_days_after_contiguous
                         (served sample_frame) URL_OPENCOVID19
                         sample_region sample_fr eq_refl) "Grand Est")).
Defined.

(** ** Exceptions of get_data *)

(** C5, as stated, fails: a body without the column [deces] is parsed, so
    the loader returns a table; the failure comes later, from [pd.melt],
    and is a KeyError, not a parse error. *)
Lemma C5_counterexample :
  served without_deces URL_OPENCOVID19 = Ok without_deces
  /\ get_data (served without_deces) URL_OPENCOVID19 = Raise (KeyError ["deces"])
  /\ is_parse_error (KeyError ["deces"]) = false
  /\ is_network_error (KeyError ["deces"]) = false.
Proof. repeat split. Qed.

Lemma expected_columns_cases (P : string -> Prop) :
  P "date" -> P "granularite" -> P "source_type" -> P "maille_nom" ->
  P "cas_confirmes" -> P "deces" -> P "reanimation" ->
  forall c, In c expected_columns -> P c.
Proof.
  intros H1 H2 H3 H4 H5 H6 H7 c Hc. simpl in Hc.
  repeat (destruct Hc as [<-|Hc]; [assumption|]). contradiction.
Qed.

(** C5, amended: [get_data] returns no table when [read_csv] raises, and the
    exception is the one [read_csv] raised (the code defines no error of its
    own); when [read_csv] returns a table that lacks one of the seven
    columns, [get_data] returns no table either, and raises the
    AttributeError or KeyError of the first access to an absent column. *)
Theorem C5_get_data_raises read_csv url :
  (forall e, read_csv url = Raise e -> get_data read_csv url = Raise e)
  /\ (forall data c,
        read_csv url = Ok data ->
        In c expected_columns -> has_column data c = false ->
        exists e, get_data read_csv url = Raise e /\ is_missing_column e = true).
Proof.
  split.
  - intros e H. unfold get_data. rewrite H. reflexivity.
  - intros data c Hread Hc Hmiss.
    unfold get_data, getattr, check_columns. rewrite Hread. simpl.
    revert c Hc Hmiss.
    apply (expected_columns_cases
             (fun c => has_column data c = false -> _));
      intros Hmiss;
      destruct (has_column data "granularite") eqn:E1; simpl;
      try (eexists; split; reflexivity);
      destruct (has_column data "source_type") eqn:E2; simpl;
      try (eexists; split; reflexivity);
      destruct (has_column data "date") eqn:E3; simpl;
      try (eexists; split; reflexivity);
      destruct (has_column data "cas_confirmes") eqn:E4;
      destruct (has_column data "deces") eqn:E5;
      destruct (has_column data "reanimation") eqn:E6; simpl;
      try (eexists; split; reflexivity);
      destruct (has_column data "maille_nom") eqn:E7; simpl;
      try (eexists; split; reflexivity);
      discriminate.
Qed.

Lemma C5_witness :
  get_data (fun _ => Raise (HTTPError 404)) URL_OPENCOVID19 = Raise (HTTPError 404)
  /\ exists e, get_data (served without_deces) URL_OPENCOVID19 = Raise e
                /\ is_missing_column e = true.
Proof.
  split.
  - exact (proj1 (C5_get_data_raises (fun _ => Raise (HTTPError 404))
                                     URL_OPENCOVID19)
                 (HTTPError 404) eq_refl).
  - refine (proj2 (C5_get_data_raises (served without_deces) URL_OPENCOVID19)
                  without_deces "deces" eq_refl _ eq_refl).
    simpl. auto 10.
Defined.

(** ** The region filter of the sidebar *)

Lemma opt_eqb_refl x : opt_eqb x x = true.
Proof. apply opt_eqb_eq. reflexivity. Qed.

Lemma in_unique x l : In x l -> In x (unique l).
Proof.
  induction l as [|y l IH]; simpl; [tauto|].
  intros [->|H]; [left; reflexivity|].
  destruct (opt_eqb y x) eqn:E.
  - apply opt_eqb_eq in E. left. exact E.
  - right. apply filter_In. split; [apply IH, H|]. rewrite E. reflexivity.
Qed.

Lemma isin_In values x : In x values -> isin values x = true.
Proof.
  intros H. unfold isin. apply existsb_exists. exists x.
  split; [exact H | apply opt_eqb_refl].
Qed.

(** Selecting every region of a table selects every row. *)
Lemma boolean_index_all_regions df :
  boolean_index (fun row => isin (regions df) (Region.maille_nom row)) df = df.
Proof.
  unfold boolean_index. apply forallb_filter_id. apply forallb_forall.
  intros x Hx. apply isin_In. unfold regions. apply in_unique.
  apply (in_map (fun x => Region.maille_nom (snd x)) df x Hx).
Qed.

Lemma deref_new h df r :
  (r < List.length h)%nat -> deref (snd (new df h)) r = deref h r.
Proof. intros H. unfold deref, new. simpl. apply app_nth1. exact H. Qed.

Lemma deref_new_ref h df : deref (snd (new df h)) (fst (new df h)) = df.
Proof.
  unfold deref, new. simpl. rewrite app_nth2 by lia.
  rewrite Nat.sub_diag. reflexivity.
Qed.

(** C9: the filter of the sidebar leaves every DataFrame it was given as it
    is, the regional table among them, and returns a new one; when the
    selection is the full list of the regions of the table, the new one
    holds the rows of the table, each as often, in the order of the view. *)
Theorem C9_region_filter_full_selection
        (h : heap) (df_covid19_region : ref) (multiselection : list (option string)) :
  (df_covid19_region < List.length h)%nat ->
  let table := deref h df_covid19_region in
  let view := fst (select_regions multiselection df_covid19_region h) in
  let h' := snd (select_regions multiselection df_covid19_region h) in
  (forall r, (r < List.length h)%nat -> deref h' r = deref h r)
  /\ view <> df_covid19_region
  /\ deref h' view
     = sort_values cmp_view
         (boolean_index (fun row => isin multiselection (Region.maille_nom row)) table)
  /\ (multiselection = regions table -> Permutation (deref h' view) table).
Proof.
  intros Hr table view h'.
  unfold view, h', select_regions, getitem, sort_values_new, then_, read.
  simpl. fold table.
  set (selected := boolean_index _ table).
  assert (Hsel : deref (h ++ [selected]) (List.length h) = selected)
    by apply (deref_new_ref h selected).
  rewrite Hsel.
  assert (Hview : deref ((h ++ [selected]) ++ [sort_values cmp_view selected])
                        (List.length (h ++ [selected]))
                  = sort_values cmp_view selected)
    by apply (deref_new_ref (h ++ [selected])).
  split; [|split; [|split]].
  - intros r Hlt. unfold deref. rewrite <- app_assoc. apply app_nth1. exact Hlt.
  - rewrite length_app. simpl. lia.
  - exact Hview.
  - intros ->. rewrite Hview. unfold selected.
    rewrite boolean_index_all_regions. apply sort_values_perm.
Qed.

Lemma C9_witness :
  Permutation
    (deref (snd (select_regions (regions sample_region) 0%nat [sample_region]))
           (fst (select_regions (regions sample_region) 0%nat [sample_region])))
    sample_region.
Proof.
  refine (proj2 (proj2 (proj2 (C9_region_filter_full_selection
                                 [sample_region] 0%nat (regions sample_region) _)))
                eq_refl).
  simpl. lia.
Defined.

(** ** days_after_5_deaths against the rank by date *)

(** C1: the code ranks the rows of a region by their count, not by their
    date. Where a count decreases from one day to the next the two differ:
    here the first day gets 2 and the second day 1, while the ranks by date
    are 1, 2, 3. *)
Theorem C1_ranks_follow_counts_not_dates :
  exists region fr,
    get_data (served corrected_downwards) URL_OPENCOVID19 = Ok (region, fr)
    /\ map (fun x => (Region.date (snd x), Region.deces (snd x),
                      Region.days_after_5_deaths (snd x))) region
       = [(Some "2020-03-01", Some 10, Some 2%nat);
          (Some "2020-03-02", Some 8, Some 1%nat);
          (Some "2020-03-03", Some 12, Some 3%nat)]
    /\ rank_by_date Base.deces 5 (base_table region)
       = [Some 1%nat; Some 2%nat; Some 3%nat]
    /\ map (fun x => (Region.date (snd x), Region.cas_confirmes (snd x),
                      Region.days_after_50_confirmed (snd x))) region
       = [(Some "2020-03-01", Some 100, Some 2%nat);
          (Some "2020-03-02", Some 90, Some 1%nat);
          (Some "2020-03-03", Some 120, Some 3%nat)]
    /\ rank_by_date Base.cas_confirmes 50 (base_table region)
       = [Some 1%nat; Some 2%nat; Some 3%nat].
Proof.
  eexists. eexists. split; [reflexivity|]. repeat split.
Qed.

(** Where the counts of a region never decrease along its dates, the rank
    by count is the rank by date. *)

Lemma StronglySorted_app_inv (l1 : list Z) :
  forall x l2,
    StronglySorted Z.le (l1 ++ x :: l2) ->
    Forall (fun y => y <= x) l1 /\ Forall (fun y => x <= y) l2.
Proof.
  induction l1 as [|a l1 IH]; intros x l2 H; simpl in H.
  - inversion H. subst. split; [constructor | assumption].
  - inversion H as [|? ? Hs Ha]. subst.
    destruct (IH x l2 Hs) as [H1 H2]. split; [|exact H2].
    constructor; [|exact H1].
    rewrite Forall_forall in Ha. apply Ha. apply in_or_app. right. left. reflexivity.
Qed.

Lemma nlt_zero v l : Forall (fun y => v <= y) l -> nlt v l = 0%nat.
Proof.
  unfold nlt. induction 1 as [|y l Hy Hl IH]; simpl; [reflexivity|].
  destruct (Z.ltb_spec y v); [lia | exact IH].
Qed.

Lemma nlt_neq_all v l :
  Forall (fun y => y <= v) l -> (nlt v l + neq v l)%nat = List.length l.
Proof.
  unfold nlt, neq. induction 1 as [|y l Hy Hl IH]; simpl; [reflexivity|].
  destruct (Z.ltb_spec y v), (Z.eqb_spec y v); simpl; lia.
Qed.

Lemma ranks_from_sorted post :
  forall before all,
    all = rev before ++ post ->
    StronglySorted Z.le all ->
    ranks_from all before post = seq (1 + List.length before) (List.length post).
Proof.
  induction post as [|v post IH]; intros before all Hall Hs; simpl.
  - reflexivity.
  - f_equal.
    + rewrite Hall in Hs. apply StronglySorted_app_inv in Hs. destruct Hs as [Hb Hp].
      assert (Hb' : Forall (fun y => y <= v) before).
      { apply Forall_forall. intros y Hy. rewrite Forall_forall in Hb.
        apply Hb. apply in_rev in Hy. exact Hy. }
      rewrite Hall, nlt_app, nlt_rev.
      assert (Hv : nlt v (v :: post) = 0%nat).
      { apply nlt_zero. constructor; [lia | exact Hp]. }
      rewrite Hv. pose proof (nlt_neq_all v before Hb'). lia.
    + rewrite (IH (v :: before) all); [reflexivity| |exact Hs].
      rewrite Hall. simpl. rewrite <- app_assoc. reflexivity.
Qed.

Lemma gvals_of_rows (val : Base.t -> option Z) (rval : Region.t -> option Z) n g
      (region : list (label * Region.t)) :
  (forall r, rval r = val (base_of r)) ->
  gvals Base.maille_nom val g (map snd (above val n (base_table region)))
  = dropna (map rval (filter (fun r => gt (rval r) n) (rows_of g region))).
Proof.
  intros Hval. unfold rows_of, above, boolean_index, base_table, gvals, dropna.
  induction region as [|x region IH]; [reflexivity|].
  cbn [map filter fst snd]. rewrite <- Hval.
  destruct (of_region g x) eqn:Eg, (gt (rval (snd x)) n) eqn:Eq;
    cbn [map filter flat_map]; rewrite ?Eq; cbn [map filter flat_map];
    try exact IH;
    change (in_group Base.maille_nom g (snd (fst x, base_of (snd x))))
      with (of_region g x);
    rewrite Eg; cbn [snd]; rewrite <- ?Hval, IH; reflexivity.
Qed.

Lemma days_after_5_deaths_by_date read_csv url region fr g :
  get_data read_csv url = Ok (region, fr) ->
  let qualifying := filter (fun r => gt (Region.deces r) 5) (rows_of g region) in
  StronglySorted Z.le (dropna (map Region.deces qualifying)) ->
  dropna (map Region.days_after_5_deaths (rows_of g region))
  = seq 1 (List.length qualifying).
Proof.
  intros Hget qualifying Hs.
  apply get_data_Ok in Hget. destruct Hget as (data & _ & Hregion & _).
  assert (H5 : forall r, Region.deces r = Base.deces (base_of r)) by reflexivity.
  pose proof (gvals_of_rows Base.deces Region.deces 5 g region H5) as Hv.
  fold qualifying in Hv.
  unfold qualifying. rewrite Hregion. unfold df_covid19_region.
  set (df := sorted_region (range_index (rows data))).
  rewrite (days_ranks Base.deces Region.days_after_5_deaths 5 df
             (NoDup_sorted_region (rows data)) (days_after_5_deaths_assigned df) g).
  rewrite <- (days_count Base.deces Region.deces 5 df H5 g).
  rewrite Hregion in Hv. unfold df_covid19_region in Hv. fold df in Hv.
  rewrite base_table_add_columns in Hv.
  rewrite Hv. apply (ranks_from_sorted _ [] _ eq_refl). exact Hs.
Qed.

(** * Further properties of get_data *)

(** ** The index of the regional table *)

Lemma in_combine_seq {A : Type} (l : list A) :
  forall s i x,
    In (i, x) (combine (seq s (List.length l)) l)
    <-> (s <= i)%nat /\ nth_error l (i - s) = Some x.
Proof.
  induction l as [|y l IH]; intros s i x; simpl.
  - split; [contradiction|]. intros [_ H]. destruct (i - s)%nat; discriminate.
  - rewrite IH. split.
    + intros [H|[Hle H]].
      * inversion H. subst. rewrite Nat.sub_diag. split; [lia|reflexivity].
      * split; [lia|]. replace (i - s)%nat with (S (i - S s)) by lia. exact H.
    + intros [Hle H]. destruct (Nat.eq_dec i s) as [->|Hne].
      * left. rewrite Nat.sub_diag in H. simpl in H. congruence.
      * right. split; [lia|].
        replace (i - s)%nat with (S (i - S s)) in H by lia. exact H.
Qed.

Lemma in_range_index {A : Type} (l : list A) i x :
  In (i, x) (range_index l) <-> nth_error l i = Some x.
Proof.
  unfold range_index. rewrite in_combine_seq, Nat.sub_0_r.
  split; [tauto|]. intros H. split; [lia|exact H].
Qed.

Lemma map_snd_range_index {A : Type} (l : list A) : map snd (range_index l) = l.
Proof.
  unfold range_index. generalize 0%nat.
  induction l as [|x l IH]; intros s; simpl; [reflexivity|].
  rewrite IH. reflexivity.
Qed.

Lemma length_boolean_index_range {A : Type} (p : A -> bool) (l : list A) :
  List.length (boolean_index p (range_index l)) = List.length (filter p l).
Proof.
  unfold boolean_index.
  rewrite <- (map_snd_range_index l) at 2.
  rewrite filter_map_swap, length_map. reflexivity.
Qed.

Lemma length_add_columns df : List.length (add_columns df) = List.length df.
Proof. unfold add_columns. apply length_map. Qed.

Lemma in_sorted_region data i b :
  In (i, b) (sorted_region data)
  <-> exists raw,
        In (i, raw) data /\ is_regional raw = true
        /\ b = Base.mk (Raw.date raw) (Raw.maille_nom raw)
                       (Raw.cas_confirmes raw) (Raw.deces raw).
Proof.
  unfold sorted_region. split.
  - intros H. apply (Permutation_in _ (sort_values_perm cmp_region _)) in H.
    unfold project in H. apply in_map_iff in H. destruct H as ([j raw] & E & H).
    apply filter_In in H. simpl in *. inversion E. subst.
    exists raw. tauto.
  - intros (raw & Hin & Hreg & ->).
    apply (Permutation_in _ (Permutation_sym (sort_values_perm cmp_region _))).
    unfold project. apply in_map_iff. exists (i, raw). split; [reflexivity|].
    apply filter_In. split; assumption.
Qed.

(** X2: the regional table keeps the row labels of the CSV (the
    [reset_index] of line 75 is not assigned, so nothing is renumbered): its
    labels are distinct, a row labelled [i] carries the four columns of row
    [i] of the CSV, which is a regional row of the regional agencies, every
    such row of the CSV is in the table under its label, and the table has
    as many rows as the CSV has of them. *)
Theorem X2_regional_rows_keep_their_labels read_csv url data region fr :
  read_csv url = Ok data ->
  get_data read_csv url = Ok (region, fr) ->
  NoDup (map fst region)
  /\ List.length region = List.length (filter is_regional (rows data))
  /\ (forall i r, In (i, r) region ->
        exists raw,
          nth_error (rows data) i = Some raw /\ is_regional raw = true
          /\ Region.date r = Raw.date raw
          /\ Region.maille_nom r = Raw.maille_nom raw
          /\ Region.cas_confirmes r = Raw.cas_confirmes raw
          /\ Region.deces r = Raw.deces raw)
  /\ (forall i raw, nth_error (rows data) i = Some raw -> is_regional raw = true ->
        exists r, In (i, r) region).
Proof.
  intros Hread Hget.
  apply get_data_Ok in Hget. destruct Hget as (data' & Hread' & -> & _).
  rewrite Hread in Hread'. inversion Hread'. subst data'.
  unfold df_covid19_region.
  set (df := sorted_region (range_index (rows data))).
  split; [|split; [|split]].
  - replace (map fst (add_columns df)) with (map fst df).
    + apply NoDup_sorted_region.
    + unfold add_columns. rewrite map_map. reflexivity.
  - rewrite length_add_columns. unfold df, sorted_region.
    rewrite (Permutation_length (sort_values_perm cmp_region _)).
    unfold project. rewrite length_map. apply length_boolean_index_range.
  - intros i r Hin. apply in_add_columns in Hin. simpl in Hin.
    destruct Hin as (b & Hb & Hd & Hm & Hc & Hx & _).
    apply in_sorted_region in Hb. destruct Hb as (raw & Hraw & Hreg & ->).
    apply in_range_index in Hraw. exists raw. simpl in *. auto 10.
  - intros i raw Hnth Hreg.
    assert (Hb : In (i, Base.mk (Raw.date raw) (Raw.maille_nom raw)
                                (Raw.cas_confirmes raw) (Raw.deces raw)) df).
    { apply in_sorted_region. exists raw.
      rewrite in_range_index. auto. }
    unfold add_columns. eexists.
    apply in_map_iff. eexists. split; [|exact Hb]. simpl. reflexivity.
Qed.

Lemma X2_witness :
  map fst sample_region = [8%nat; 7%nat; 1%nat; 3%nat; 2%nat; 0%nat]
  /\ NoDup (map fst sample_region).
Proof.
  split; [reflexivity|].
  exact (proj1 (X2_regional_rows_keep_their_labels
                  (served sample_frame) URL_OPENCOVID19 sample_frame
                  sample_region sample_fr eq_refl eq_refl)).
Defined.

(** ** The layout of the national table *)

Lemma nth_error_melt_var df v i x :
  nth_error df i = Some x ->
  nth_error (melt_var df v) i
  = Some (National.mk (of_str (Raw.date (snd x))) (Str (fst v))
                      (of_num (snd v (snd x)))).
Proof.
  intros H. unfold melt_var. rewrite nth_error_map, H. reflexivity.
Qed.

(** X3: the national table is made of three blocks of the length of the
    selection, in the order [cas_confirmes], [deces], [reanimation]; row [i]
    of block [j] holds the date of the [i]-th selected row, the name of the
    [j]-th metric column and its value there, 0 standing for a missing date
    or value. The dates are not sorted: each block follows the CSV. *)
Theorem X3_national_table_blocks read_csv url data region fr :
  read_csv url = Ok data ->
  get_data read_csv url = Ok (region, fr) ->
  let selected := boolean_index is_national (range_index (rows data)) in
  forall i j x v,
    nth_error selected i = Some x ->
    nth_error value_vars j = Some v ->
    nth_error fr (j * List.length selected + i)
    = Some (National.mk (fill 0 (of_str (Raw.date (snd x)))) (Str (fst v))
                        (fill 0 (of_num (snd v (snd x))))).
Proof.
  intros Hread Hget selected i j x v Hx Hv.
  apply get_data_Ok in Hget. destruct Hget as (data' & Hread' & _ & ->).
  rewrite Hread in Hread'. inversion Hread'. subst data'.
  unfold df_covid19_fr. fold selected. unfold fillna. rewrite nth_error_map.
  assert (Hi : (i < List.length selected)%nat).
  { apply nth_error_Some. rewrite Hx. discriminate. }
  assert (Hm : nth_error (melt selected) (j * List.length selected + i)
               = Some (National.mk (of_str (Raw.date (snd x))) (Str (fst v))
                                   (of_num (snd v (snd x))))).
  { unfold melt, value_vars in *. simpl flat_map.
    destruct j as [|[|[|j]]]; simpl in Hv.
    - inversion Hv. subst v. simpl Nat.mul. simpl Nat.add.
      rewrite nth_error_app1 by (rewrite length_melt_var; exact Hi).
      apply nth_error_melt_var, Hx.
    - inversion Hv. subst v.
      rewrite nth_error_app2 by (rewrite length_melt_var; lia).
      rewrite length_melt_var.
      replace (1 * List.length selected + i - List.length selected)%nat
        with i by lia.
      rewrite nth_error_app1 by (rewrite length_melt_var; exact Hi).
      apply nth_error_melt_var, Hx.
    - inversion Hv. subst v.
      rewrite nth_error_app2 by (rewrite length_melt_var; lia).
      rewrite length_melt_var.
      rewrite nth_error_app2 by (rewrite length_melt_var; lia).
      rewrite length_melt_var.
      replace (2 * List.length selected + i - List.length selected
               - List.length selected)%nat with i by lia.
      rewrite nth_error_app1 by (rewrite length_melt_var; exact Hi).
      apply nth_error_melt_var, Hx.
    - destruct j; discriminate Hv. }
  rewrite Hm. reflexivity.
Qed.

Lemma X3_witness :
  nth_error sample_fr 5 = Some (National.mk (Num 0) (Str "reanimation") (Num 9)).
Proof.
  exact (X3_national_table_blocks
           (served sample_frame) URL_OPENCOVID19 sample_frame
           sample_region sample_fr eq_refl eq_refl
           1%nat 2%nat
           (5%nat, nth 5 sample_rows (raw "" "" "" "" 0 0))
           ("reanimation", Raw.reanimation) eq_refl eq_refl).
Defined.

(** X4: the national table holds nothing but the official national rows:
    every row of it comes from a row of the CSV with [granularite = "pays"]
    and [source_type = "sante-publique-france"]; its [type] is the name of
    one of the three metric columns, its [nombre] is a number, and its
    [date] is the date of that row or 0. *)
Theorem X4_national_rows_come_from_official_rows read_csv url data region fr :
  read_csv url = Ok data ->
  get_data read_csv url = Ok (region, fr) ->
  forall r, In r fr ->
    exists i raw v,
      nth_error (rows data) i = Some raw
      /\ Raw.granularite raw = Some "pays"
      /\ Raw.source_type raw = Some "sante-publique-france"
      /\ In v value_vars
      /\ National.type r = Str (fst v)
      /\ National.date r
         = match Raw.date raw with Some d => Str d | None => Num 0 end
      /\ National.nombre r
         = match snd v raw with Some z => Num z | None => Num 0 end.
Proof.
  intros Hread Hget r Hr.
  apply get_data_Ok in Hget. destruct Hget as (data' & Hread' & _ & ->).
  rewrite Hread in Hread'. inversion Hread'. subst data'.
  unfold df_covid19_fr, fillna in Hr. apply in_map_iff in Hr.
  destruct Hr as (m & <- & Hm).
  unfold melt in Hm. apply in_flat_map in Hm. destruct Hm as (v & Hv & Hm).
  unfold melt_var in Hm. apply in_map_iff in Hm. destruct Hm as ([i raw] & <- & Hx).
  apply filter_In in Hx. destruct Hx as [Hx Hnat].
  apply in_range_index in Hx.
  unfold is_national in Hnat. simpl in Hnat.
  apply andb_true_iff in Hnat. destruct Hnat as [Hg Hs].
  apply eq_str_eq in Hg. apply eq_str_eq in Hs.
  exists i, raw, v. simpl.
  repeat split; try assumption.
  - destruct (Raw.date raw); reflexivity.
  - destruct (snd v raw); reflexivity.
Qed.

Lemma X4_witness :
  exists i raw v,
    nth_error sample_rows i = Some raw
    /\ Raw.granularite raw = Some "pays"
    /\ Raw.source_type raw = Some "sante-publique-france"
    /\ In v value_vars
    /\ Str "deces" = Str (fst v)
    /\ Str "2020-03-01"
       = match Raw.date raw with Some d => Str d | None => Num 0 end
    /\ Num 2 = match snd v raw with Some z => Num z | None => Num 0 end.
Proof.
  refine (X4_national_rows_come_from_official_rows
            (served sample_frame) URL_OPENCOVID19 sample_frame
            sample_region sample_fr eq_refl eq_refl
            (National.mk (Str "2020-03-01") (Str "deces") (Num 2)) _).
  simpl. auto 10.
Defined.

(** ** The deltas of a region add up *)

Lemma deltas_of_region data g :
  let rs := rows_of g (df_covid19_region (range_index data)) in
  map Region.delta_deces rs = diff_with Base.deces None (map base_of rs)
  /\ map Region.delta_cas_confirmes rs
     = diff_with Base.cas_confirmes None (map base_of rs).
Proof.
  intros rs. unfold rs, df_covid19_region.
  rewrite rows_of_base, base_table_add_columns.
  split.
  - apply delta_deces_of_region.
  - apply delta_cas_confirmes_of_region.
Qed.

Lemma last_cons (v : Z) vs d : last (v :: vs) d = last vs v.
Proof.
  revert v d. induction vs as [|w vs IH]; intros v d; [reflexivity|].
  change (last (v :: w :: vs) d) with (last (w :: vs) d).
  rewrite (IH w d), (IH w v). reflexivity.
Qed.

Lemma sum_diff_with {A : Type} (val : A -> option Z) l :
  forall p vp vs,
    val p = Some vp ->
    map val l = map Some vs ->
    fold_right Z.add 0 (dropna (diff_with val (Some p) l)) = last vs vp - vp.
Proof.
  induction l as [|r l IH]; intros p vp [|v vs] Hp Hl; simpl in Hl;
    try discriminate.
  - simpl. lia.
  - inversion Hl as [[Hr Hl']]. simpl diff_with. rewrite Hr, Hp.
    change (fold_right Z.add 0
              (dropna (sub (Some v) (Some vp) :: diff_with val (Some r) l)))
      with (v - vp + fold_right Z.add 0 (dropna (diff_with val (Some r) l))).
    rewrite (IH r v vs Hr Hl'), last_cons. lia.
Qed.

Lemma sum_diff_with_None {A : Type} (val : A -> option Z) l vs :
  map val l = map Some vs ->
  fold_right Z.add 0 (dropna (diff_with val None l)) = last vs 0 - hd 0 vs.
Proof.
  destruct l as [|r l]; destruct vs as [|v vs]; simpl; intros H;
    try discriminate.
  - reflexivity.
  - inversion H as [[Hr Hl]].
    rewrite (sum_diff_with val l r v vs Hr Hl).
    destruct vs as [|z vs]; [reflexivity|].
    rewrite (last_cons z vs v), (last_cons z vs 0). reflexivity.
Qed.

(** X5: in a region whose [deces] are all present, the values of
    [delta_deces] add up to the last [deces] of the region minus the first
    one; the same holds of [delta_cas_confirmes] and [cas_confirmes]. *)
Theorem X5_deltas_sum_to_the_increase read_csv url region fr g :
  get_data read_csv url = Ok (region, fr) ->
  let rs := rows_of g region in
  (forall vs, map Region.deces rs = map Some vs ->
     fold_right Z.add 0 (dropna (map Region.delta_deces rs))
     = last vs 0 - hd 0 vs)
  /\ (forall vs, map Region.cas_confirmes rs = map Some vs ->
        fold_right Z.add 0 (dropna (map Region.delta_cas_confirmes rs))
        = last vs 0 - hd 0 vs).
Proof.
  intros Hget rs.
  apply get_data_Ok in Hget. destruct Hget as (data & _ & Hregion & _).
  unfold rs. rewrite Hregion.
  destruct (deltas_of_region (rows data) g) as [Hd Hc].
  split; intros vs Hvs.
  - rewrite Hd. apply sum_diff_with_None.
    rewrite map_map. exact Hvs.
  - rewrite Hc. apply sum_diff_with_None.
    rewrite map_map. exact Hvs.
Qed.

Lemma X5_witness :
  fold_right Z.add 0
             (dropna (map Region.delta_deces (rows_of "Grand Est" sample_region)))
  = 9.
Proof.
  exact (proj1 (X5_deltas_sum_to_the_increase
                  (served sample_frame) URL_OPENCOVID19
                  sample_region sample_fr "Grand Est" eq_refl)
               [0; 2; 6; 9] eq_refl).
Defined.


(** ** The ranks follow the counts *)

Lemma nth_ranks_from all post :
  forall before i v,
    nth_error post i = Some v ->
    nth_error (ranks_from all before post) i
    = Some (1 + nlt v all + neq v (rev (firstn i post) ++ before))%nat.
Proof.
  induction post as [|w post IH]; intros before i v Hv.
  - destruct i; discriminate.
  - destruct i as [|i]; simpl in *.
    + inversion Hv. reflexivity.
    + rewrite (IH (w :: before) i v Hv), <- app_assoc. reflexivity.
Qed.

Lemma neq_firstn_lt vs i a :
  nth_error vs i = Some a -> (neq a (firstn i vs) < neq a vs)%nat.
Proof.
  intros H. apply nth_error_split in H. destruct H as (l1 & l2 & -> & <-).
  rewrite firstn_app, Nat.sub_diag, firstn_all. simpl firstn.
  rewrite app_nil_r, neq_app, neq_cons_same. lia.
Qed.

Lemma neq_firstn_mono vs i j a :
  (i < j)%nat -> nth_error vs i = Some a ->
  (neq a (firstn i vs) < neq a (firstn j vs))%nat.
Proof.
  intros Hij H. apply nth_error_split in H. destruct H as (l1 & l2 & -> & <-).
  rewrite !firstn_app, Nat.sub_diag, !firstn_all2 by lia. simpl firstn at 1.
  replace (j - List.length l1)%nat with (S (j - List.length l1 - 1)) by lia.
  simpl firstn. rewrite app_nil_r, neq_app, neq_cons_same.
  rewrite (firstn_all2 (n := j) l1) by lia. lia.
Qed.

(** Of two values the smaller one has the smaller rank, and of two equal
    values the first one. *)
Lemma ranks_from_order vs i j a b ra rb :
  nth_error vs i = Some a -> nth_error vs j = Some b ->
  nth_error (ranks_from vs [] vs) i = Some ra ->
  nth_error (ranks_from vs [] vs) j = Some rb ->
  a < b \/ (a = b /\ (i < j)%nat) ->
  (ra < rb)%nat.
Proof.
  intros Ha Hb Hra Hrb Hab.
  rewrite (nth_ranks_from vs vs [] i a Ha) in Hra.
  rewrite (nth_ranks_from vs vs [] j b Hb) in Hrb.
  inversion Hra. inversion Hrb. subst ra rb.
  rewrite !app_nil_r, !neq_rev.
  destruct Hab as [Hlt|[-> Hij]].
  - pose proof (nlt_mono a b vs Hlt). pose proof (neq_firstn_lt vs i a Ha). lia.
  - pose proof (neq_firstn_mono vs i j b Hij Ha). lia.
Qed.

Lemma map_Some_dropna {A X : Type} (f : A -> option X) l :
  (forall x, In x l -> f x <> None) ->
  map f l = map Some (dropna (map f l)).
Proof.
  induction l as [|x l IH]; intros H; [reflexivity|].
  simpl map. destruct (f x) as [v|] eqn:E.
  - change (dropna (Some v :: map f l)) with (v :: dropna (map f l)).
    simpl. rewrite <- IH; [reflexivity|]. intros y Hy. apply H. right. exact Hy.
  - exfalso. apply (H x (or_introl eq_refl) E).
Qed.

Section RankOrder.
Variable val : Base.t -> option Z.
Variable rval : Region.t -> option Z.
Variable col : Region.t -> option nat.
Variable n : Z.
Variable df : list (label * Base.t).
Variable g : string.

Hypothesis Hnd : NoDup (map fst df).
Hypothesis Hval : forall r, rval r = val (base_of r).
Hypothesis Hcol :
  forall x, In x (add_columns df) -> col (snd x) = loc (days_after val n df) (fst x).

(** The counts and the indices of the qualifying rows of a region. *)
Lemma qualifying_ranks :
  let qs := filter (fun r => gt (rval r) n) (rows_of g (add_columns df)) in
  exists vs,
    map rval qs = map Some vs
    /\ map col qs = map Some (ranks_from vs [] vs).
Proof.
  intros qs.
  exists (gvals Base.maille_nom val g (map snd (above val n df))).
  pose proof (gvals_of_rows val rval n g (add_columns df) Hval) as Hv.
  rewrite base_table_add_columns in Hv. fold qs in Hv.
  split.
  - rewrite Hv. apply map_Some_dropna.
    intros r Hr. apply filter_In in Hr. destruct Hr as [_ Hr].
    destruct (rval r); [discriminate|discriminate Hr].
  - rewrite <- (days_ranks val col n df Hnd Hcol g).
    rewrite (dropna_filter col (fun r => gt (rval r) n)).
    + fold qs. apply map_Some_dropna.
      intros r Hr. apply filter_In in Hr. destruct Hr as [Hr Hq].
      apply (days_some val rval col n df Hnd Hval Hcol g r Hr Hq).
    + intros r Hr Hq. unfold rows_of in Hr. apply in_map_iff in Hr.
      destruct Hr as (x & <- & Hx). apply filter_In in Hx.
      apply (days_none val rval col n df Hnd Hval Hcol x); tauto.
Qed.

Lemma qualifying_follows_counts :
  follows_counts rval col
    (filter (fun r => gt (rval r) n) (rows_of g (add_columns df))).
Proof.
  destruct qualifying_ranks as (vs & Hvs & Hranks).
  intros i j x y cx cy Hx Hy Hcx Hcy Hord.
  pose proof (f_equal (fun l => nth_error l i) Hvs) as Hi.
  pose proof (f_equal (fun l => nth_error l j) Hvs) as Hj.
  pose proof (f_equal (fun l => nth_error l i) Hranks) as Ri.
  pose proof (f_equal (fun l => nth_error l j) Hranks) as Rj.
  simpl in Hi, Hj, Ri, Rj.
  rewrite !nth_error_map in Hi, Hj, Ri, Rj.
  rewrite Hx in Hi, Ri. rewrite Hy in Hj, Rj. simpl in Hi, Hj, Ri, Rj.
  rewrite Hcx in Hi. rewrite Hcy in Hj.
  destruct (nth_error vs i) as [a|] eqn:Ea; [|discriminate Hi].
  destruct (nth_error vs j) as [b|] eqn:Eb; [|discriminate Hj].
  destruct (nth_error (ranks_from vs [] vs) i) as [ra|] eqn:Era;
    [|discriminate Ri].
  destruct (nth_error (ranks_from vs [] vs) j) as [rb|] eqn:Erb;
    [|discriminate Rj].
  simpl in Hi, Hj, Ri, Rj.
  inversion Hi. inversion Hj. subst a b.
  exists ra, rb. split; [congruence|]. split; [congruence|].
  apply (ranks_from_order vs i j cx cy ra rb Ea Eb Era Erb Hord).
Qed.

End RankOrder.

(** X7: among the rows of a region with [deces > 5], taken in table order,
    [days_after_5_deaths] follows [deces]: the row with the smaller [deces]
    has the smaller index, and of two rows with the same [deces] the earlier
    one; so [deces] never decreases along the index. The same holds of
    [days_after_50_confirmed] and [cas_confirmes] among the rows with
    [cas_confirmes > 50]. *)
Theorem X7_days_after_follow_the_counts read_csv url region fr g :
  get_data read_csv url = Ok (region, fr) ->
  follows_counts Region.deces Region.days_after_5_deaths
    (filter (fun r => gt (Region.deces r) 5) (rows_of g region))
  /\ follows_counts Region.cas_confirmes Region.days_after_50_confirmed
       (filter (fun r => gt (Region.cas_confirmes r) 50) (rows_of g region)).
Proof.
  intros Hget.
  apply get_data_Ok in Hget. destruct Hget as (data & _ & -> & _).
  unfold df_covid19_region.
  set (df := sorted_region (range_index (rows data))).
  pose proof (NoDup_sorted_region (rows data)) as Hnd. fold df in Hnd.
  split.
  - apply (qualifying_follows_counts Base.deces Region.deces
             Region.days_after_5_deaths 5 df g Hnd (fun r => eq_refl)
             (days_after_5_deaths_assigned df)).
  - apply (qualifying_follows_counts Base.cas_confirmes Region.cas_confirmes
             Region.days_after_50_confirmed 50 df g Hnd (fun r => eq_refl)
             (days_after_50_confirmed_assigned df)).
Qed.

Lemma X7_witness :
  exists rx ry, Some 1%nat = Some rx /\ Some 2%nat = Some ry /\ (rx < ry)%nat.
Proof.
  refine (proj1 (X7_days_after_follow_the_counts
                   (served sample_frame) URL_OPENCOVID19
                   sample_region sample_fr "Grand Est" eq_refl)
                0%nat 1%nat
                (nth 4 (map snd sample_region)
                     (Region.mk None None None None None None SpecFloat.S754_nan None None))
                (nth 5 (map snd sample_region)
                     (Region.mk None None None None None None SpecFloat.S754_nan None None))
                6 9 eq_refl eq_refl eq_refl eq_refl _).
  left. lia.
Defined.

(** ** The options of the region filter *)

Lemma in_unique_iff x l : In x (unique l) <-> In x l.
Proof.
  split; [|apply in_unique].
  induction l as [|y l IH]; simpl; [tauto|].
  intros [H|H]; [left; exact H|].
  apply filter_In in H. right. apply IH. tauto.
Qed.

Lemma NoDup_unique l : NoDup (unique l).
Proof.
  induction l as [|x l IH]; simpl; constructor.
  - intros H. apply filter_In in H. destruct H as [_ H].
    rewrite opt_eqb_refl in H. discriminate H.
  - apply NoDup_filter. exact IH.
Qed.

(** The distinct values of an ascending list ascend strictly. *)
Lemma unique_sorted l :
  StronglySorted (fun a b => cmp_key true a b <> Gt) l ->
  StronglySorted (fun a b => cmp_key true a b = Lt) (unique l).
Proof.
  induction 1 as [|x l Hl IH Hx]; simpl; constructor.
  - apply (StronglySorted_filter (fun a b => cmp_key true a b = Lt)).
    + auto.
    + exact IH.
  - apply Forall_forall. intros y Hy. apply filter_In in Hy.
    destruct Hy as [Hy Hne]. apply (proj1 (in_unique_iff y l)) in Hy.
    rewrite Forall_forall in Hx. specialize (Hx y Hy).
    destruct (cmp_key true x y) eqn:E; [|reflexivity|contradiction].
    apply cmp_key_Eq in E. subst y. rewrite opt_eqb_refl in Hne. discriminate Hne.
Qed.

Lemma maille_nom_sorted data :
  StronglySorted (fun a b => cmp_key true a b <> Gt)
                 (map (fun x => Region.maille_nom (snd x)) (df_covid19_region data)).
Proof.
  apply StronglySorted_map.
  pose proof (sort_values_sorted cmp_region order_cmp_region
                (project (boolean_index is_regional data))) as H.
  fold (sorted_region data) in H.
  rewrite <- (base_table_add_columns (sorted_region data)) in H.
  fold (df_covid19_region data) in H.
  remember (df_covid19_region data) as l eqn:El. clear El.
  induction l as [|x l IH]; simpl in *.
  - constructor.
  - inversion H as [|? ? Hl Hx]. subst. constructor; [apply IH, Hl|].
    rewrite Forall_forall in *. intros y Hy.
    specialize (Hx _ (in_map (fun x => (fst x, base_of (snd x))) l y Hy)).
    unfold le_rows, leb_of, cmp_region, lexico in Hx. simpl in Hx.
    destruct (cmp_key true (Region.maille_nom (snd x)) (Region.maille_nom (snd y)));
      [discriminate|discriminate|].
    discriminate Hx.
Qed.

(** X8: the options of the region multiselect, read off the table
    [get_data] returns, are the [maille_nom] values of that table, each
    once, in strictly ascending order (a missing name, if any, last). *)
Theorem X8_regions_are_the_sorted_distinct_names read_csv url region fr :
  get_data read_csv url = Ok (region, fr) ->
  NoDup (regions region)
  /\ (forall m, In m (regions region)
               <-> exists x, In x region /\ Region.maille_nom (snd x) = m)
  /\ StronglySorted (fun a b => cmp_key true a b = Lt) (regions region).
Proof.
  intros Hget.
  apply get_data_Ok in Hget. destruct Hget as (data & _ & -> & _).
  unfold regions. split; [|split].
  - apply NoDup_unique.
  - intros m. rewrite in_unique_iff, in_map_iff.
    split; intros (x & H1 & H2); exists x; split; assumption.
  - apply unique_sorted, maille_nom_sorted.
Qed.

Lemma X8_witness : regions sample_region = [Some "Bretagne"; Some "Grand Est"]
                   /\ NoDup (regions sample_region).
Proof.
  split; [reflexivity|].
  exact (proj1 (X8_regions_are_the_sorted_distinct_names
                  (served sample_frame) URL_OPENCOVID19
                  sample_region sample_fr eq_refl)).
Defined.

(** ** The view the region filter returns *)

Lemma order_cmp_view : order cmp_view.
Proof.
  apply (order_lexico Region.maille_nom Region.date); apply order_cmp_key.
Qed.

Lemma select_regions_view h r m :
  deref (snd (select_regions m r h)) (fst (select_regions m r h))
  = sort_values cmp_view
      (boolean_index (fun row => isin m (Region.maille_nom row)) (deref h r)).
Proof.
  unfold select_regions, getitem, sort_values_new, then_, read. simpl.
  set (selected := boolean_index _ (deref h r)).
  assert (Hsel : deref (h ++ [selected]) (List.length h) = selected)
    by apply (deref_new_ref h selected).
  rewrite Hsel. apply (deref_new_ref (h ++ [selected])).
Qed.

(** X9: whatever the selection, the view of the sidebar holds the rows of
    the regional table whose [maille_nom] is selected and no other row; it
    is sorted by [maille_nom] ascending, and the rows of each region stand
    from the latest date to the earliest; with nothing selected it is
    empty. *)
Theorem X9_view_holds_the_selected_regions_latest_first
        (h : heap) (df_covid19_region : ref) (multiselection : list (option string)) :
  let table := deref h df_covid19_region in
  let view := deref (snd (select_regions multiselection df_covid19_region h))
                    (fst (select_regions multiselection df_covid19_region h)) in
  (forall x, In x view
             <-> In x table /\ isin multiselection (Region.maille_nom (snd x)) = true)
  /\ StronglySorted (le_rows cmp_view) view
  /\ (forall g, StronglySorted latest_first (rows_of g view))
  /\ (multiselection = [] -> view = []).
Proof.
  intros table view. unfold view. rewrite select_regions_view. fold table.
  set (selected := boolean_index _ table).
  pose proof (sort_values_sorted cmp_view order_cmp_view selected) as Hs.
  split; [|split; [|split]].
  - intros x. split.
    + intros H. apply (Permutation_in _ (sort_values_perm cmp_view selected)) in H.
      apply filter_In in H. exact H.
    + intros H.
      apply (Permutation_in _ (Permutation_sym (sort_values_perm cmp_view selected))).
      apply filter_In. exact H.
  - exact Hs.
  - intros g. unfold rows_of. apply StronglySorted_map.
    apply (StronglySorted_filter (le_rows cmp_view)); [|exact Hs].
    intros x y Hx Hy. unfold of_region in Hx, Hy.
    apply eq_str_eq in Hx. apply eq_str_eq in Hy.
    unfold le_rows, leb_of, cmp_view, latest_first. rewrite Hx, Hy. simpl.
    assert (E : String.compare g g = Eq)
      by apply (cmp_refl _ (order_cmp_key true) (Some g)).
    rewrite E. simpl.
    destruct (cmp_key false (Region.date (snd x)) (Region.date (snd y)));
      congruence.
  - intros ->. unfold selected, boolean_index.
    rewrite (filter_ext _ (fun _ => false)) by reflexivity.
    rewrite filter_false. reflexivity.
Qed.

Lemma sort_values_sorted_id {A : Type} (cmp : A -> A -> comparison) l :
  StronglySorted (le_rows cmp) l -> sort_values cmp l = l.
Proof.
  induction 1 as [|x l Hl IH Hx]; simpl; [reflexivity|].
  rewrite IH. destruct l as [|y l]; [reflexivity|].
  simpl. inversion Hx as [|? ? Hxy _]. subst.
  unfold le_rows in Hxy. rewrite Hxy. reflexivity.
Qed.

(** X10: the filter is idempotent: applied to its own view with the same
    selection it returns a table equal to that view, row for row and in the
    same order. *)
Theorem X10_region_filter_twice
        (h : heap) (df_covid19_region : ref) (multiselection : list (option string)) :
  let once := select_regions multiselection df_covid19_region h in
  let twice := select_regions multiselection (fst once) (snd once) in
  deref (snd twice) (fst twice) = deref (snd once) (fst once).
Proof.
  intros once twice. unfold twice. rewrite select_regions_view.
  unfold once. rewrite select_regions_view.
  set (mask := fun row => isin multiselection (Region.maille_nom row)).
  set (selected := boolean_index mask (deref h df_covid19_region)).
  assert (Hall : boolean_index mask (sort_values cmp_view selected)
                 = sort_values cmp_view selected).
  { unfold boolean_index. apply forallb_filter_id. apply forallb_forall.
    intros x Hx. apply (Permutation_in _ (sort_values_perm cmp_view selected)) in Hx.
    apply filter_In in Hx. tauto. }
  rewrite Hall. apply sort_values_sorted_id.
  apply (sort_values_sorted cmp_view order_cmp_view).
Qed.

(** ** The indices count the days when the counts never decrease *)

Lemma days_after_50_confirmed_by_date read_csv url region fr g :
  get_data read_csv url = Ok (region, fr) ->
  let qualifying :=
    filter (fun r => gt (Region.cas_confirmes r) 50) (rows_of g region) in
  StronglySorted Z.le (dropna (map Region.cas_confirmes qualifying)) ->
  dropna (map Region.days_after_50_confirmed (rows_of g region))
  = seq 1 (List.length qualifying).
Proof.
  intros Hget qualifying Hs.
  apply get_data_Ok in Hget. destruct Hget as (data & _ & Hregion & _).
  assert (H50 : forall r, Region.cas_confirmes r = Base.cas_confirmes (base_of r))
    by reflexivity.
  pose proof (gvals_of_rows Base.cas_confirmes Region.cas_confirmes 50 g region H50)
    as Hv.
  fold qualifying in Hv.
  unfold qualifying. rewrite Hregion. unfold df_covid19_region.
  set (df := sorted_region (range_index (rows data))).
  rewrite (days_ranks Base.cas_confirmes Region.days_after_50_confirmed 50 df
             (NoDup_sorted_region (rows data))
             (days_after_50_confirmed_assigned df) g).
  rewrite <- (days_count Base.cas_confirmes Region.cas_confirmes 50 df H50 g).
  rewrite Hregion in Hv. unfold df_covid19_region in Hv. fold df in Hv.
  rewrite base_table_add_columns in Hv.
  rewrite Hv. apply (ranks_from_sorted _ [] _ eq_refl). exact Hs.
Qed.

(** X11: in a region whose [deces] above 5 never decrease from one date to
    the next, [days_after_5_deaths] numbers the rows with [deces > 5] by
    date: 1 on the first of them, 2 on the second, and so on; likewise
    [days_after_50_confirmed] when the [cas_confirmes] above 50 never
    decrease. *)
Theorem X11_days_after_count_the_days read_csv url region fr g :
  get_data read_csv url = Ok (region, fr) ->
  let rs := rows_of g region in
  let above_5 := filter (fun r => gt (Region.deces r) 5) rs in
  let above_50 := filter (fun r => gt (Region.cas_confirmes r) 50) rs in
  (StronglySorted Z.le (dropna (map Region.deces above_5)) ->
   dropna (map Region.days_after_5_deaths rs) = seq 1 (List.length above_5))
  /\ (StronglySorted Z.le (dropna (map Region.cas_confirmes above_50)) ->
      dropna (map Region.days_after_50_confirmed rs)
      = seq 1 (List.length above_50)).
Proof.
  intros Hget rs above_5 above_50. split; intros Hs.
  - apply (days_after_5_deaths_by_date read_csv url region fr g Hget Hs).
  - apply (days_after_50_confirmed_by_date read_csv url region fr g Hget Hs).
Qed.

Lemma X11_witness :
  dropna (map Region.days_after_5_deaths (rows_of "Grand Est" sample_region))
  = [1%nat; 2%nat].
Proof.
  refine (proj1 (X11_days_after_count_the_days
                   (served sample_frame) URL_OPENCOVID19
                   sample_region sample_fr "Grand Est" eq_refl) _).
  change (StronglySorted Z.le [6; 9]).
  repeat constructor. lia.
Defined.

(** ** The regions stand one after another *)

Lemma flat_map_ext_members {A B : Type} (f f' : A -> list B) l :
  (forall a, In a l -> f a = f' a) -> flat_map f l = flat_map f' l.
Proof.
  induction l as [|a l IH]; intros H; simpl; [reflexivity|].
  rewrite (H a (or_introl eq_refl)), IH; [reflexivity|].
  intros b Hb. apply H. right. exact Hb.
Qed.

Lemma filter_idem {A : Type} (p : A -> bool) l : filter p (filter p l) = filter p l.
Proof.
  apply forallb_filter_id. apply forallb_forall. intros x Hx.
  apply filter_In in Hx. tauto.
Qed.

Lemma head_of_sorted (U : list (option string)) m :
  StronglySorted (fun a b => cmp_key true a b = Lt) U ->
  (forall u, In u U -> cmp_key true m u <> Gt) ->
  In m U ->
  exists U0, U = m :: U0 /\ filter (fun y => negb (opt_eqb m y)) U0 = U0.
Proof.
  intros Hs Hge Hin. destruct U as [|u U0]; [contradiction|].
  inversion Hs as [|? ? _ Hu]. subst. rewrite Forall_forall in Hu.
  destruct Hin as [->|Hin].
  - exists U0. split; [reflexivity|].
    apply forallb_filter_id. apply forallb_forall. intros y Hy.
    destruct (opt_eqb m y) eqn:E; [|reflexivity].
    apply opt_eqb_eq in E. subst y. specialize (Hu m Hy).
    rewrite (cmp_refl _ (order_cmp_key true)) in Hu. discriminate Hu.
  - exfalso. specialize (Hu m Hin). apply (Hge u (or_introl eq_refl)).
    rewrite (cmp_antisym _ (order_cmp_key true) u m), Hu. reflexivity.
Qed.

Section Blocks.
Context {A : Type}.
Variable k : A -> option string.

(** A list whose keys ascend is the concatenation of the sublists of its
    distinct keys, taken in order of first appearance. *)
Lemma sorted_blocks l :
  StronglySorted (fun x y => cmp_key true (k x) (k y) <> Gt) l ->
  l = flat_map (fun m => filter (fun z => opt_eqb m (k z)) l) (unique (map k l)).
Proof.
  induction 1 as [|x l Hl IH Hx]; [reflexivity|].
  cbn [map unique flat_map filter]. rewrite opt_eqb_refl.
  cbn [app]. f_equal.
  rewrite Forall_forall in Hx.
  assert (Hrest :
            flat_map (fun m => if opt_eqb m (k x)
                               then x :: filter (fun z => opt_eqb m (k z)) l
                               else filter (fun z => opt_eqb m (k z)) l)
                     (filter (fun y => negb (opt_eqb (k x) y)) (unique (map k l)))
            = flat_map (fun m => filter (fun z => opt_eqb m (k z)) l)
                       (filter (fun y => negb (opt_eqb (k x) y)) (unique (map k l)))).
  { apply flat_map_ext_members. intros m Hm. apply filter_In in Hm.
    destruct Hm as [_ Hm].
    destruct (opt_eqb m (k x)) eqn:E; [|reflexivity].
    apply opt_eqb_eq in E. subst m. rewrite opt_eqb_refl in Hm. discriminate Hm. }
  rewrite Hrest. clear Hrest.
  set (F := fun m => filter (fun z => opt_eqb m (k z)) l) in *.
  change (filter (fun z => opt_eqb (k x) (k z)) l) with (F (k x)).
  set (U := unique (map k l)) in *.
  transitivity (flat_map F U); [exact IH|].
  destruct (existsb (opt_eqb (k x)) U) eqn:Ex.
  - apply existsb_exists in Ex. destruct Ex as (u & Hu & E).
    apply opt_eqb_eq in E. subst u.
    destruct (head_of_sorted U (k x)) as (U0 & HU & HU0).
    + apply unique_sorted, StronglySorted_map. exact Hl.
    + intros u Hin. apply (proj1 (in_unique_iff u (map k l))) in Hin.
      apply in_map_iff in Hin.
      destruct Hin as (z & <- & Hz). apply Hx, Hz.
    + exact Hu.
    + rewrite HU. cbn [flat_map filter]. rewrite opt_eqb_refl. cbn [negb].
      rewrite HU0. reflexivity.
  - assert (Hnot : forall u, In u U -> opt_eqb (k x) u = false).
    { intros u Hin. destruct (opt_eqb (k x) u) eqn:E; [|reflexivity].
      rewrite <- Ex. symmetry. apply existsb_exists. exists u. auto. }
    assert (HF : F (k x) = []).
    { unfold F. rewrite (filter_ext_in _ (fun _ => false)); [apply filter_false|].
      intros z Hz. apply Hnot. apply in_unique_iff.
      apply (in_map k l z Hz). }
    rewrite HF. cbn [app].
    rewrite forallb_filter_id; [reflexivity|].
    apply forallb_forall. intros u Hin. rewrite (Hnot u Hin). reflexivity.
Qed.

End Blocks.

(** X12: the regional table lists its regions one after another: it is the
    concatenation, over the options of the region multiselect in their
    order, of the rows that carry each name. The rows of a region are
    therefore adjacent, and a groupby on [maille_nom] cuts the table into
    consecutive blocks. *)
Theorem X12_regional_table_is_made_of_region_blocks read_csv url region fr :
  get_data read_csv url = Ok (region, fr) ->
  region
  = flat_map (fun m => filter (fun x => opt_eqb m (Region.maille_nom (snd x))) region)
             (regions region).
Proof.
  intros Hget.
  apply get_data_Ok in Hget. destruct Hget as (data & _ & -> & _).
  unfold regions.
  apply (sorted_blocks (fun x => Region.maille_nom (snd x))).
  pose proof (maille_nom_sorted (range_index (rows data))) as H.
  remember (df_covid19_region (range_index (rows data))) as l eqn:El. clear El.
  induction l as [|x l IH]; [constructor|].
  simpl in H. inversion H as [|? ? Hl Hx]. subst.
  constructor; [apply IH, Hl|].
  rewrite Forall_forall in *. intros y Hy. apply Hx.
  apply (in_map (fun x => Region.maille_nom (snd x)) l y Hy).
Qed.

Lemma X12_witness :
  sample_region
  = filter (fun x => opt_eqb (Some "Bretagne") (Region.maille_nom (snd x)))
           sample_region
    ++ filter (fun x => opt_eqb (Some "Grand Est") (Region.maille_nom (snd x)))
              sample_region
    ++ [].
Proof.
  exact (X12_regional_table_is_made_of_region_blocks
           (served sample_frame) URL_OPENCOVID19 sample_region sample_fr eq_refl).
Defined.

(** ** The exception of an absent column *)

(** X13: on a table that lacks one of the seven columns, the exception
    [get_data] raises depends on the first absent column the code reaches:
    the AttributeError of [data.granularite] when [granularite] is absent;
    the AttributeError of [data.source_type] when [granularite] is there and
    [source_type] is not; and a KeyError, from [pd.melt] or from the
    projection, when those two are there and another column is absent. *)
Theorem X13_exception_of_an_absent_column read_csv url data :
  read_csv url = Ok data ->
  (has_column data "granularite" = false ->
   get_data read_csv url = Raise (AttributeError "granularite"))
  /\ (has_column data "granularite" = true ->
      has_column data "source_type" = false ->
      get_data read_csv url = Raise (AttributeError "source_type"))
  /\ (has_column data "granularite" = true ->
      has_column data "source_type" = true ->
      forall c, In c expected_columns -> has_column data c = false ->
      exists names, get_data read_csv url = Raise (KeyError names)).
Proof.
  intros Hread. unfold get_data, getattr, check_columns. rewrite Hread. simpl.
  split; [|split].
  - intros ->. reflexivity.
  - intros -> ->. reflexivity.
  - intros Hg Hs c Hc Hmiss. rewrite Hg, Hs. simpl.
    revert c Hc Hmiss.
    apply (expected_columns_cases
             (fun c => has_column data c = false -> _));
      intros Hmiss;
      destruct (has_column data "date") eqn:E3; simpl;
      try (eexists; reflexivity);
      destruct (has_column data "cas_confirmes") eqn:E4;
      destruct (has_column data "deces") eqn:E5;
      destruct (has_column data "reanimation") eqn:E6; simpl;
      try (eexists; reflexivity);
      destruct (has_column data "maille_nom") eqn:E7; simpl;
      try (eexists; reflexivity);
      congruence.
Qed.

Lemma X13_witness :
  exists names,
    get_data (served without_deces) URL_OPENCOVID19 = Raise (KeyError names).
Proof.
  refine (proj2 (proj2 (X13_exception_of_an_absent_column
                          (served without_deces) URL_OPENCOVID19 without_deces
                          eq_refl))
                eq_refl eq_refl "deces" _ eq_refl).
  simpl. auto 10.
Defined.
